(** * Fashion dashboard: the content-query layer and the statistics layer

    A shallow embedding of [lib/database.js] (getAllContent, searchContent,
    getContentStats, getCategories, getSources) and of the two route
    handlers [app/api/data/route.ts] and [app/api/stats/route.ts], with the
    properties of the query composer and of the metrics aggregator.

    Conventions of the embedding
    - The [content] table is a list of rows in rowid order.  The bulk loader
      (parseCSV / insertData) writes every one of the ten data columns of
      each row, text columns from [split(',')] and numeric columns through
      [parseFloat(..) || 0] / [parseInt(..) || 0], so no column of a stored
      row is NULL and the row type has no nullable field.
    - Decimal columns and SQL averages are exact rationals ([Q]); integer
      columns and the numbers produced by [parseInt] are mathematical
      integers ([Z]).  Rounding of IEEE doubles is outside the model.
    - Strings are sequences of 8-bit characters; case folding is the ASCII
      folding that SQLite's LIKE performs.
    - A prepared statement is kept as a small syntax tree in which every
      [?] placeholder already carries the parameter pushed for it, instead
      of an SQL text and a parallel parameter array.
    - Rows that compare equal under ORDER BY are kept in table order (a
      stable sort); SQL leaves that order open. *)

From Stdlib Require Import ZArith QArith Qround Qabs Bool List Ascii String Lia Lqa.
From Stdlib Require Import Sorting.Sorted Sorting.Permutation.
Import ListNotations.

Local Open Scope string_scope.
Local Open Scope list_scope.
Local Open Scope Z_scope.

(** ** The data model *)

(** One row of the [content] table (CREATE TABLE in setup-database.js). *)
Record ContentRecord := mkContent {
  id : Z;
  category : string;
  url : string;
  source : string;
  time_spent_minutes : Q;
  upvotes : Z;
  views : Z;
  engagement_score : Q;
  content_type : string;
  difficulty_level : string;
  trending_score : Q;
  created_at : string;
  updated_at : string
}.

Definition Table := list ContentRecord.

(** The backing store: [None] when the database file cannot be opened. *)
Definition Store := option Table.

(** Exceptions: a computation returns a value or throws an [Error(msg)]. *)
Inductive Result (A : Type) : Type :=
| Ok (a : A)
| Throw (msg : string).
Arguments Ok {A} a.
Arguments Throw {A} msg.

Definition bind {A B : Type} (m : Result A) (k : A -> Result B) : Result B :=
  match m with
  | Ok a => k a
  | Throw msg => Throw msg
  end.

Notation "x <- m ;; k" := (bind m (fun x => k))
  (at level 61, m at next level, right associativity).

(** [try { body } catch (error) { throw new Error(msg) }] *)
Definition try_rethrow {A : Type} (body : Result A) (msg : string) : Result A :=
  match body with
  | Ok a => Ok a
  | Throw _ => Throw msg
  end.

(** ** JavaScript values used by the handlers *)

(** The result of [parseInt]: an integer or NaN. *)
Inductive JSNumber : Type :=
| NaN
| Num (z : Z).

(** Truthiness of a number: NaN and 0 are falsy. *)
Definition truthy_number (n : JSNumber) : bool :=
  match n with
  | NaN => false
  | Num z => negb (z =? 0)
  end.

(** Truthiness of a string: only the empty string is falsy. *)
Definition truthy_string (s : string) : bool :=
  match s with
  | EmptyString => false
  | String _ _ => true
  end.

(** Truthiness of a value that may be [undefined] / [null]. *)
Definition truthy_opt {A : Type} (truthy : A -> bool) (o : option A) : bool :=
  match o with
  | Some a => truthy a
  | None => false
  end.

(** [s || dflt] for a string-or-null [s]. *)
Definition or_string (o : option string) (dflt : string) : string :=
  match o with
  | Some s => if truthy_string s then s else dflt
  | None => dflt
  end.

(** [s || undefined] *)
Definition or_undefined (s : string) : option string :=
  if truthy_string s then Some s else None.

Definition code (c : ascii) : Z := Z.of_N (N_of_ascii c).

(** White space of [String.prototype.trim] and of [parseInt], within the
    8-bit range: TAB, LF, VT, FF, CR and SPACE. *)
Definition is_white_space (c : ascii) : bool :=
  ((9 <=? code c) && (code c <=? 13)) || (code c =? 32).

Fixpoint trimStart (s : string) : string :=
  match s with
  | EmptyString => EmptyString
  | String c s' => if is_white_space c then trimStart s' else s
  end.

Fixpoint trimEnd (s : string) : string :=
  match s with
  | EmptyString => EmptyString
  | String c s' =>
      match trimEnd s' with
      | EmptyString => if is_white_space c then EmptyString else String c EmptyString
      | t => String c t
      end
  end.

Definition trim (s : string) : string := trimEnd (trimStart s).

(** The value of a digit in the given radix, if it is one. *)
Definition digit_value (radix : Z) (c : ascii) : option Z :=
  let n := code c in
  let v :=
    if (48 <=? n) && (n <=? 57) then Some (n - 48)
    else if (97 <=? n) && (n <=? 122) then Some (n - 87)
    else if (65 <=? n) && (n <=? 90) then Some (n - 55)
    else None in
  match v with
  | Some d => if d <? radix then Some d else None
  | None => None
  end.

(** The longest prefix of digits, as a number; [None] when it is empty. *)
Fixpoint parse_digits (radix : Z) (acc : option Z) (s : string) : option Z :=
  match s with
  | EmptyString => acc
  | String c s' =>
      match digit_value radix c with
      | Some d =>
          parse_digits radix
            (Some (match acc with Some a => a * radix + d | None => d end)) s'
      | None => acc
      end
  end.

(** [parseInt(s)] with no radix argument: leading white space, an optional
    sign, an optional [0x] / [0X] prefix, then the longest run of digits;
    NaN when there is no digit.  Whatever follows the digits is ignored. *)
Definition parseInt (s : string) : JSNumber :=
  let s1 := trimStart s in
  let '(sign, s2) :=
    match s1 with
    | String "-" r => (-1, r)
    | String "+" r => (1, r)
    | _ => (1, s1)
    end in
  let '(radix, s3) :=
    match s2 with
    | String "0" (String "x" r) => (16, r)
    | String "0" (String "X" r) => (16, r)
    | _ => (10, s2)
    end in
  match parse_digits radix None s3 with
  | Some m => Num (sign * m)
  | None => NaN
  end.

(** [URLSearchParams]: the name/value pairs of the query string, in order;
    [get] returns the first value of a name, or null. *)
Definition URLSearchParams := list (string * string).

Fixpoint get (searchParams : URLSearchParams) (name : string) : option string :=
  match searchParams with
  | [] => None
  | (k, v) :: rest => if String.eqb k name then Some v else get rest name
  end.

(** ** The SQL fragment the data layer uses *)

Inductive Column : Type :=
| col_category
| col_source
| col_content_type
| col_difficulty_level.

Definition column_value (c : Column) (r : ContentRecord) : string :=
  match c with
  | col_category => category r
  | col_source => source r
  | col_content_type => content_type r
  | col_difficulty_level => difficulty_level r
  end.

(** ASCII lower-casing, as LIKE folds case. *)
Definition to_lower (c : ascii) : ascii :=
  if (65 <=? code c) && (code c <=? 90)
  then ascii_of_N (N_of_ascii c + 32)
  else c.

Definition eqb_nocase (a b : ascii) : bool :=
  Ascii.eqb (to_lower a) (to_lower b).

(** [s LIKE pat]: [%] matches any run of characters, [_] any one
    character, every other character itself up to ASCII case.  There is
    no escape character. *)
Fixpoint like (pat : string) : string -> bool :=
  match pat with
  | EmptyString =>
      fun s => match s with EmptyString => true | String _ _ => false end
  | String p pat' =>
      if Ascii.eqb p "%" then
        fix any_run (s : string) : bool :=
          like pat' s ||
          match s with
          | EmptyString => false
          | String _ s' => any_run s'
          end
      else if Ascii.eqb p "_" then
        fun s =>
          match s with
          | EmptyString => false
          | String _ s' => like pat' s'
          end
      else
        fun s =>
          match s with
          | EmptyString => false
          | String c s' => eqb_nocase p c && like pat' s'
          end
  end.

(** A WHERE expression; each comparison carries the bound parameter. *)
Inductive Expr : Type :=
| EqParam (c : Column) (v : string)          (* c = ?    *)
| LikeParam (c : Column) (pat : string)      (* c LIKE ? *)
| Or (a b : Expr)
| And (a b : Expr).

(** [=] on a text column and a text parameter is exact equality. *)
Fixpoint eval (e : Expr) (r : ContentRecord) : bool :=
  match e with
  | EqParam c v => String.eqb (column_value c r) v
  | LikeParam c pat => like pat (column_value c r)
  | Or a b => eval a r || eval b r
  | And a b => eval a r && eval b r
  end.

(** [SELECT <all columns> FROM content [WHERE e]
     ORDER BY engagement_score DESC, trending_score DESC
     [LIMIT n [OFFSET k]]] *)
Record Statement := mkStatement {
  stmt_where : option Expr;
  stmt_limit : option Z;
  stmt_offset : option Z
}.

(** [ORDER BY engagement_score DESC, trending_score DESC]: may [r1] stand
    before [r2]? *)
Definition order_by_desc (r1 r2 : ContentRecord) : bool :=
  match engagement_score r2 ?= engagement_score r1 with
  | Lt => true
  | Gt => false
  | Eq =>
      match trending_score r2 ?= trending_score r1 with
      | Gt => false
      | _ => true
      end
  end%Q.

Section Sorting.
Context {A : Type} (leb : A -> A -> bool).

Fixpoint insert (x : A) (l : list A) : list A :=
  match l with
  | [] => [x]
  | y :: l' => if leb x y then x :: l else y :: insert x l'
  end.

(** Stable insertion sort. *)
Fixpoint sort (l : list A) : list A :=
  match l with
  | [] => []
  | x :: l' => insert x (sort l')
  end.
End Sorting.

(** LIMIT / OFFSET.  A negative LIMIT means no upper bound and a negative
    OFFSET counts as zero.  OFFSET only occurs after LIMIT. *)
Definition limit_offset {A : Type} (limit offset : option Z) (rows : list A) : list A :=
  match limit with
  | None => rows
  | Some n =>
      let k := match offset with Some k => Z.max 0 k | None => 0 end in
      let rest := skipn (Z.to_nat k) rows in
      if n <? 0 then rest else firstn (Z.to_nat n) rest
  end.

Definition where_filter (w : option Expr) (rows : Table) : Table :=
  match w with
  | Some e => filter (eval e) rows
  | None => rows
  end.

(** [db.prepare(sql).all(...params)] *)
Definition all (db : Table) (stmt : Statement) : list ContentRecord :=
  limit_offset (stmt_limit stmt) (stmt_offset stmt)
    (sort order_by_desc (where_filter (stmt_where stmt) db)).

(** ** lib/database.js *)

(** [getDatabase()]: the lazily opened connection; opening may fail. *)
Definition getDatabase (store : Store) : Result Table :=
  match store with
  | Some db => Ok db
  | None => Throw "Database connection failed"
  end.

(** The [filters] object; an absent property is [None]. *)
Module Filters.
Record t := mk {
  category : option string;
  source : option string;
  contentType : option string;
  difficultyLevel : option string;
  limit : option JSNumber;
  offset : option JSNumber
}.

(** [filters = {}] *)
Definition empty : t := mk None None None None None None.
End Filters.

(** [x && x !== 'All'] *)
Definition set_and_not_All (o : option string) : bool :=
  truthy_opt truthy_string o &&
  match o with
  | Some s => negb (String.eqb s "All")
  | None => true
  end.

(** The string of a property that a guard has found truthy; the empty
    string stands for a value that is never read. *)
Definition string_of (o : option string) : string :=
  match o with
  | Some s => s
  | None => ""
  end.

(** The number bound to a placeholder guarded by [if (filters.x)]. *)
Definition bound_if_truthy (o : option JSNumber) : option Z :=
  match o with
  | Some (Num z) => if truthy_number (Num z) then Some z else None
  | Some NaN => None
  | None => None
  end.

(** [conditions.join(' AND ')], when [conditions.length > 0]. *)
Definition where_of (conditions : list Expr) : option Expr :=
  match conditions with
  | [] => None
  | c :: cs => Some (fold_left And cs c)
  end.

(** The statement [getAllContent] composes: its [sql] and [params]. *)
Definition getAllContent_sql (filters : Filters.t) : Statement :=
  let conditions := [] in
  let conditions :=
    if set_and_not_All (Filters.category filters)
    then conditions ++ [EqParam col_category (string_of (Filters.category filters))]
    else conditions in
  let conditions :=
    if set_and_not_All (Filters.source filters)
    then conditions ++ [EqParam col_source (string_of (Filters.source filters))]
    else conditions in
  let conditions :=
    if truthy_opt truthy_string (Filters.contentType filters)
    then conditions ++ [EqParam col_content_type (string_of (Filters.contentType filters))]
    else conditions in
  let conditions :=
    if truthy_opt truthy_string (Filters.difficultyLevel filters)
    then conditions ++ [EqParam col_difficulty_level (string_of (Filters.difficultyLevel filters))]
    else conditions in
  let limit := bound_if_truthy (Filters.limit filters) in
  let offset :=
    match limit with
    | Some _ => bound_if_truthy (Filters.offset filters)
    | None => None
    end in
  mkStatement (where_of conditions) limit offset.

Definition getAllContent (store : Store) (filters : Filters.t)
  : Result (list ContentRecord) :=
  db <- getDatabase store ;;
  try_rethrow
    (Ok (all db (getAllContent_sql filters)))
    "Failed to fetch content data".

(** The four LIKE comparisons of [searchContent], each bound to the same
    pattern. *)
Definition search_clause (pat : string) : Expr :=
  Or (Or (Or (LikeParam col_category pat) (LikeParam col_source pat))
         (LikeParam col_content_type pat))
     (LikeParam col_difficulty_level pat).

(** The statement [searchContent] composes; [limit], [offset],
    [contentType] and [difficultyLevel] of [filters] are not read. *)
Definition searchContent_sql (query : string) (filters : Filters.t) : Statement :=
  let pat := ("%" ++ query ++ "%")%string in
  let sql := search_clause pat in
  let sql :=
    if set_and_not_All (Filters.category filters)
    then And sql (EqParam col_category (string_of (Filters.category filters)))
    else sql in
  let sql :=
    if set_and_not_All (Filters.source filters)
    then And sql (EqParam col_source (string_of (Filters.source filters)))
    else sql in
  mkStatement (Some sql) None None.

Definition searchContent (store : Store) (query : string) (filters : Filters.t)
  : Result (list ContentRecord) :=
  db <- getDatabase store ;;
  try_rethrow
    (Ok (all db (searchContent_sql query filters)))
    "Failed to search content".

(** SQL aggregates over the whole table.  SUM and AVG of no rows are NULL. *)
Definition sql_count {A : Type} (rows : list A) : Z := Z.of_nat (List.length rows).

Definition sql_sum (xs : list Z) : option Z :=
  match xs with
  | [] => None
  | _ :: _ => Some (fold_right Z.add 0 xs)
  end.

Definition sql_avg (xs : list Q) : option Q :=
  match xs with
  | [] => None
  | _ :: _ => Some (fold_right Qplus 0 xs / inject_Z (Z.of_nat (List.length xs)))%Q
  end.

(** A nullable number in arithmetic position: [null * 100] is [0]. *)
Definition to_number (o : option Q) : Q :=
  match o with
  | Some q => q
  | None => 0%Q
  end.

(** [Math.round]: the nearest integer, halves upwards. *)
Definition Math_round (x : Q) : Q := inject_Z (Qfloor (x + (1 # 2))).

Record ContentStats := mkStats {
  totalContent : Z;
  avgTimeSpent : Q;
  totalUpvotes : option Z;
  totalViews : option Z
}.

Definition getContentStats (store : Store) : Result ContentStats :=
  db <- getDatabase store ;;
  try_rethrow
    (let totalContent_count := sql_count db in
     let avgTimeSpent_avg := sql_avg (map time_spent_minutes db) in
     let totalUpvotes_total := sql_sum (map upvotes db) in
     let totalViews_total := sql_sum (map views db) in
     Ok (mkStats totalContent_count
           (Math_round (to_number avgTimeSpent_avg * 100) / 100)%Q
           totalUpvotes_total
           totalViews_total))
    "Failed to fetch content statistics".

(** [SELECT DISTINCT col FROM content ORDER BY col], under the BINARY
    collation: duplicates removed, then ascending by character codes. *)
Definition select_distinct_ordered (col : ContentRecord -> string) (db : Table)
  : list string :=
  sort String.leb (nodup string_dec (map col db)).

Definition getCategories (store : Store) : Result (list string) :=
  db <- getDatabase store ;;
  try_rethrow (Ok (select_distinct_ordered category db))
    "Failed to fetch categories".

Definition getSources (store : Store) : Result (list string) :=
  db <- getDatabase store ;;
  try_rethrow (Ok (select_distinct_ordered source db))
    "Failed to fetch sources".

(** ** The route handlers *)

Inductive Response (A : Type) : Type :=
| json (body : A)                         (* NextResponse.json(body) *)
| json_error (error : string) (status : Z). (* NextResponse.json({ error }, { status }) *)
Arguments json {A} body.
Arguments json_error {A} error status.

(** The object the data route returns for each row. *)
Record DashboardItem := mkItem {
  Category : string;
  URL : string;
  Source : string;
  Time_Spent_Minutes : Q;
  Upvotes : Z;
  Views : Z;
  Engagement_Score : Q;
  Content_Type : string;
  Difficulty_Level : string;
  Trending_Score : Q;
  item_id : Z;
  item_created_at : string;
  item_updated_at : string
}.

Definition transform (item : ContentRecord) : DashboardItem :=
  {| Category := category item;
     URL := url item;
     Source := source item;
     Time_Spent_Minutes := time_spent_minutes item;
     Upvotes := upvotes item;
     Views := views item;
     Engagement_Score := engagement_score item;
     Content_Type := content_type item;
     Difficulty_Level := difficulty_level item;
     Trending_Score := trending_score item;
     item_id := id item;
     item_created_at := created_at item;
     item_updated_at := updated_at item |}.

(** [searchParams.get(name) ? parseInt(searchParams.get(name)!) : undefined] *)
Definition int_param (searchParams : URLSearchParams) (name : string)
  : option JSNumber :=
  if truthy_opt truthy_string (get searchParams name)
  then Some (parseInt (string_of (get searchParams name)))
  else None.

(** app/api/data/route.ts *)
Module DataRoute.
Definition filters_of (searchParams : URLSearchParams) : Filters.t :=
  let category := or_string (get searchParams "category") "All" in
  let source := or_string (get searchParams "source") "All" in
  let contentType := or_string (get searchParams "contentType") "" in
  let difficultyLevel := or_string (get searchParams "difficultyLevel") "" in
  let limit := int_param searchParams "limit" in
  let offset := int_param searchParams "offset" in
  {| Filters.category := Some category;
     Filters.source := Some source;
     Filters.contentType := or_undefined contentType;
     Filters.difficultyLevel := or_undefined difficultyLevel;
     Filters.limit := limit;
     Filters.offset := offset |}.

Definition GET (store : Store) (searchParams : URLSearchParams)
  : Response (list DashboardItem) :=
  let search := or_string (get searchParams "search") "" in
  let filters := filters_of searchParams in
  let data :=
    if truthy_string (trim search)
    then searchContent store search filters
    else getAllContent store filters in
  match data with
  | Ok data => json (map transform data)
  | Throw _ => json_error "Failed to load data from database" 500
  end.
End DataRoute.

(** app/api/stats/route.ts *)
Module StatsRoute.
Record Body := mkBody {
  stats : ContentStats;
  categories : list string;
  sources : list string
}.

Definition GET (store : Store) : Response Body :=
  match
    (stats <- getContentStats store ;;
     categories <- getCategories store ;;
     sources <- getSources store ;;
     Ok (mkBody stats categories sources))
  with
  | Ok body => json body
  | Throw _ => json_error "Failed to load statistics" 500
  end.
End StatsRoute.

(** * Notions the properties are stated with *)


(** The statement the data route runs for a query string. *)
Definition route_statement (searchParams : URLSearchParams) : Statement :=
  let search := or_string (get searchParams "search") "" in
  if truthy_string (trim search)
  then searchContent_sql search (DataRoute.filters_of searchParams)
  else getAllContent_sql (DataRoute.filters_of searchParams).

(** The free-text predicate of [searchContent]: its parenthesised group of
    LIKE comparisons, bound to the pattern the function builds. *)
Definition search_predicate (query : string) (r : ContentRecord) : bool :=
  eval (search_clause ("%" ++ query ++ "%")%string) r.

(** Does the string contain one of LIKE's wildcards? *)
Fixpoint has_wildcard (s : string) : bool :=
  match s with
  | EmptyString => false
  | String c s' => Ascii.eqb c "%" || Ascii.eqb c "_" || has_wildcard s'
  end.

Fixpoint lower (s : string) : string :=
  match s with
  | EmptyString => EmptyString
  | String c s' => String (to_lower c) (lower s')
  end.

(** [q] occurs in [s] as a substring, up to ASCII case. *)
Definition occurs_nocase (q s : string) : Prop :=
  exists pre mid post : string,
    s = (pre ++ mid ++ post)%string /\ lower mid = lower q.

(** The same, as a test: is [q] a prefix of [s] up to case, and does it
    occur at some position of [s]? *)
Fixpoint prefix_nocase (q s : string) : bool :=
  match q, s with
  | EmptyString, _ => true
  | String _ _, EmptyString => false
  | String c q', String d s' => eqb_nocase c d && prefix_nocase q' s'
  end.

Fixpoint contains_nocase (q s : string) : bool :=
  prefix_nocase q s ||
  match s with
  | EmptyString => false
  | String _ s' => contains_nocase q s'
  end.

(** The query string with every value of one parameter removed. *)
Definition without (name : string) (searchParams : URLSearchParams) : URLSearchParams :=
  filter (fun kv => negb (String.eqb (fst kv) name)) searchParams.

(** No search text is supplied: the [search] parameter is absent, empty
    or white space only, so the route calls [getAllContent]. *)
Definition no_search (searchParams : URLSearchParams) : Prop :=
  trim (or_string (get searchParams "search") "") = "".

(** A small table: three records, one of them from Instagram with a
    category that contains "Fashion". *)
Definition row1 : ContentRecord :=
  mkContent 1 "Fashion Tips" "https://www.instagram.com/reel/1" "Instagram"
    0 10 100 (5 # 10) "Reel" "Beginner" (1 # 10)
    "2024-01-01 00:00:00" "2024-01-01 00:00:00".

Definition row2 : ContentRecord :=
  mkContent 2 "Style Principles" "https://www.tiktok.com/@hued/video/2" "TikTok"
    0 20 200 (9 # 10) "Video" "Advanced" (2 # 10)
    "2024-01-01 00:00:00" "2024-01-01 00:00:00".

Definition row3 : ContentRecord :=
  mkContent 3 "Sustainable Fashion" "https://substack.com/p/3" "Substack"
    1 30 300 (5 # 10) "Article" "Beginner" (3 # 10)
    "2024-01-01 00:00:00" "2024-01-01 00:00:00".

Definition sample : Table := [row1; row2; row3].

Definition all_categories_query : URLSearchParams :=
  [("category", "All"); ("source", "Instagram")].
Definition all_content_types_query : URLSearchParams := [("contentType", "All")].
Definition search_video_query : URLSearchParams :=
  [("search", "fashion"); ("contentType", "Video")].







(** * The rest of the data layer: notions *)

(** ** Where the embedding is exact

    The definitions above take numbers as unbounded integers, text as
    8-bit characters and the engine as never failing.  The program
    agrees with them on the inputs described here; outside of them a
    double rounds, SQLite refuses a LIMIT, an OFFSET or a LIKE pattern,
    [_] stands for a character of several bytes, or a sum overflows.
    Statements that depend on it carry these conditions as hypotheses. *)

(** A number that a double holds exactly and SQLite takes as an
    integer; NaN and an absent number are never bound. *)
Definition exact_number (o : option JSNumber) : Prop :=
  match o with
  | Some (Num z) => - 2 ^ 53 <= z <= 2 ^ 53
  | Some NaN => True
  | None => True
  end.

(** Text of ASCII characters only. *)
Fixpoint ascii_text (s : string) : bool :=
  match s with
  | EmptyString => true
  | String c s' => (code c <? 128) && ascii_text s'
  end.

Definition ascii_record (r : ContentRecord) : bool :=
  ascii_text (category r) && ascii_text (source r) &&
  ascii_text (content_type r) && ascii_text (difficulty_level r).

(** Does the character occur in the string? *)
Fixpoint has_char (c : ascii) (s : string) : bool :=
  match s with
  | EmptyString => false
  | String d s' => Ascii.eqb d c || has_char c s'
  end.

Definition no_nul_record (r : ContentRecord) : bool :=
  negb (has_char "000" (category r)) && negb (has_char "000" (source r)) &&
  negb (has_char "000" (content_type r)) && negb (has_char "000" (difficulty_level r)).

(** A search text and a table on which LIKE does what the embedding
    says.  SQLite takes a pattern of at most 50000 bytes, two of which
    are the [%] around the text; it reads a pattern and a value up to
    the first NUL character; and its [_] stands for one character, which
    is one byte in ASCII text. *)
Definition like_is_exact (query : string) (db : Table) : Prop :=
  Z.of_nat (String.length query) <= 49998 /\
  has_char "000" query = false /\
  forallb no_nul_record db = true /\
  (has_char "_" query = false \/ forallb ascii_record db = true).

(** Query strings used as examples. *)
Definition search_page_query : URLSearchParams :=
  [("search", "fashion"); ("limit", "1")].
Definition search_page_offset_query : URLSearchParams :=
  [("search", "fashion"); ("limit", "1"); ("offset", "1")].
Definition underscore_query : URLSearchParams := [("search", "_")].

(** A filter that treats an absent, an empty and the "All" value as no
    restriction (category, source). *)
Definition passes_unless_All (o : option string) (v : string) : bool :=
  match o with
  | Some s => String.eqb s "" || String.eqb s "All" || String.eqb v s
  | None => true
  end.

(** A filter that treats an absent and an empty value as no restriction
    (content type, difficulty level). *)
Definition passes_unless_empty (o : option string) (v : string) : bool :=
  match o with
  | Some s => String.eqb s "" || String.eqb v s
  | None => true
  end.

(** The record passes the four equality filters. *)
Definition passes_filters (f : Filters.t) (r : ContentRecord) : bool :=
  passes_unless_All (Filters.category f) (category r) &&
  passes_unless_All (Filters.source f) (source r) &&
  passes_unless_empty (Filters.contentType f) (content_type r) &&
  passes_unless_empty (Filters.difficultyLevel f) (difficulty_level r).

(** The record passes the free-text predicate and the two filters that
    [searchContent] reads. *)
Definition passes_search (query : string) (f : Filters.t) (r : ContentRecord) : bool :=
  search_predicate query r &&
  passes_unless_All (Filters.category f) (category r) &&
  passes_unless_All (Filters.source f) (source r).

(** The filters with the page [limit], [offset]. *)
Definition with_page (f : Filters.t) (limit offset : Z) : Filters.t :=
  Filters.mk (Filters.category f) (Filters.source f) (Filters.contentType f)
    (Filters.difficultyLevel f) (Some (Num limit)) (Some (Num offset)).

(** * The dashboard page (app/page.tsx) *)

(** The page talks to the two routes of the same server.  A request is
    the list of parameters it appends; the form encoding of the query
    string and its decoding on the server are taken to be inverse to each
    other.  One request is answered before the next is sent. *)
Module Dashboard.

(** The React state of the page. *)
Record State := mkState {
  data : list DashboardItem;
  filteredData : list DashboardItem;
  searchTerm : string;
  selectedCategory : string;
  selectedSource : string;
  isLoading : bool;
  categories : list string;
  sources : list string
}.

(** The initial values of the [useState] hooks. *)
Definition initial : State := mkState [] [] "" "All" "All" true [] [].


(** The query parameters [fetchData] appends. *)
Definition fetchData_params (search category source : string) : URLSearchParams :=
  let params := [] in
  let params :=
    if truthy_string (trim search) then params ++ [("search", trim search)] else params in
  let params :=
    if negb (String.eqb category "All") then params ++ [("category", category)] else params in
  let params :=
    if negb (String.eqb source "All") then params ++ [("source", source)] else params in
  params.

(** [fetchData]: on a 200 answer the records replace [data] and
    [filteredData]; on any other answer the error is logged and both stay
    as they are.  [isLoading] is cleared either way. *)
Definition fetchData (store : Store) (st : State) (search category source : string) : State :=
  match DataRoute.GET store (fetchData_params search category source) with
  | json body =>
      mkState body body (searchTerm st) (selectedCategory st) (selectedSource st)
        false (categories st) (sources st)
  | json_error _ _ =>
      mkState (data st) (filteredData st) (searchTerm st) (selectedCategory st)
        (selectedSource st) false (categories st) (sources st)
  end.




Module CategoryStat.
Record t := mk {
  category : string;
  avgTimeSpent : Q;
  totalUpvotes : Z;
  totalViews : Z;
  avgEngagement : Q;
  count : Z
}.
End CategoryStat.


(** [(a, b) => b.Time_Spent_Minutes - a.Time_Spent_Minutes] is not
    positive: [a] may stay before [b]. *)
Definition by_time_spent_desc (a b : DashboardItem) : bool :=
  Qle_bool (Time_Spent_Minutes b) (Time_Spent_Minutes a).

Definition by_upvotes_desc (a b : DashboardItem) : bool :=
  Upvotes b <=? Upvotes a.

(** [[...filteredData].sort(cmp).slice(0, 10)]; [sort] is stable. *)
Definition topContent (st : State) : list DashboardItem :=
  firstn 10 (sort by_time_spent_desc (filteredData st)).

Definition topUpvoted (st : State) : list DashboardItem :=
  firstn 10 (sort by_upvotes_desc (filteredData st)).

Module SourceShare.
Record t := mk {
  source : string;
  count : Z;
  percentage : Q
}.
End SourceShare.


Module TotalMetrics.
Record t := mk {
  totalContent : Z;
  avgTimeSpent : Q;
  totalUpvotes : Z;
  totalViews : Z
}.
End TotalMetrics.


End Dashboard.

(** [top] holds the at most ten items of [items] with the greatest keys,
    greatest first: it is in descending order of the key, and together
    with some rest, whose keys are nowhere greater, it makes up [items]. *)
Definition top_ten_by {K : Type} (le_key : K -> K -> Prop) (key : DashboardItem -> K)
           (items top : list DashboardItem) : Prop :=
  List.length top = Nat.min 10 (List.length items) /\
  StronglySorted (fun a b => le_key (key b) (key a)) top /\
  exists rest,
    Permutation items (top ++ rest) /\
    forall a b, In a top -> In b rest -> le_key (key b) (key a).

(** * The request guards of docs/SECURITY_MODEL.md *)

(** [s.split(sep)] for a separator of one character: the pieces between
    the occurrences of the separator, at least one piece. *)
Fixpoint split_on (sep : ascii) (s : string) : list string :=
  match s with
  | EmptyString => [EmptyString]
  | String c s' =>
      if Ascii.eqb c sep then EmptyString :: split_on sep s'
      else
        match split_on sep s' with
        | piece :: rest => String c piece :: rest
        | [] => [String c EmptyString]
        end
  end.

(** [array.includes(x)] for strings. *)
Definition includes (l : list string) (x : string) : bool :=
  existsb (String.eqb x) l.

Module Security.

(** [{ count, resetTime }] *)
Record Limit := mkLimit {
  count : Z;
  resetTime : Z
}.

(** [Map<string, { count: number; resetTime: number }>] *)
Definition LimitMap := string -> option Limit.

(** [new Map()] *)
Definition new_Map : LimitMap := fun _ => None.

(** [map.set(key, value)] *)
Definition set (key : string) (value : Limit) (m : LimitMap) : LimitMap :=
  fun k => if String.eqb k key then Some value else m k.

(** [checkRateLimit(ip)] at the time [now = Date.now()], on the module's
    map [rateLimits]; returns the answer and the map afterwards.
    [limit.count++] updates the entry that the map holds. *)
Definition checkRateLimit (now : Z) (ip : string) (rateLimits : LimitMap)
  : bool * LimitMap :=
  match rateLimits ip with
  | None => (true, set ip (mkLimit 1 (now + 3600000)) rateLimits)
  | Some limit =>
      if now >? resetTime limit
      then (true, set ip (mkLimit 1 (now + 3600000)) rateLimits)
      else if count limit >=? 100
      then (false, rateLimits)
      else (true, set ip (mkLimit (count limit + 1) (resetTime limit)) rateLimits)
  end.

(** [checkAPIKeyLimit(apiKey)]; the entry is never counted up. *)
Definition checkAPIKeyLimit (now : Z) (apiKey : string) (apiKeyLimits : LimitMap)
  : bool * LimitMap :=
  match apiKeyLimits apiKey with
  | None => (true, set apiKey (mkLimit 1 (now + 3600000)) apiKeyLimits)
  | Some limit =>
      if now >? resetTime limit
      then (true, set apiKey (mkLimit 1 (now + 3600000)) apiKeyLimits)
      else (count limit <? 1000, apiKeyLimits)
  end.

(** [validateAPIKey(apiKey)] under the environment variable API_KEYS,
    [None] when it is not set. *)
Definition validateAPIKey (API_KEYS : option string) (apiKey : string) : bool :=
  let validKeys :=
    match API_KEYS with
    | Some keys => split_on "," keys
    | None => []
    end in
  includes validKeys apiKey.

(** A run of a guard: the calls, each with its time and its key, are
    served one after the other. *)
Fixpoint serve (guard : Z -> string -> LimitMap -> bool * LimitMap)
         (calls : list (Z * string)) (m : LimitMap) : list bool * LimitMap :=
  match calls with
  | [] => ([], m)
  | (now, key) :: rest =>
      let '(answer, m') := guard now key m in
      let '(answers, m'') := serve guard rest m' in
      (answer :: answers, m'')
  end.

(** The number of calls of [key] that a run lets through. *)
Fixpoint passed_calls (guard : Z -> string -> LimitMap -> bool * LimitMap)
         (key : string) (calls : list (Z * string)) (m : LimitMap) : nat :=
  match calls with
  | [] => 0%nat
  | (now, who) :: rest =>
      let '(answer, m') := guard now who m in
      ((if answer && String.eqb who key then 1 else 0) +
       passed_calls guard key rest m')%nat
  end.

End Security.

(** Two calls inside the window that a call at time 5 opens. *)
Definition two_calls : list (Z * string) := [(6, "10.0.0.1"); (7, "10.0.0.2")].

(** * The connection of lib/database.js as module state *)

(** [getDatabase] above takes the store as given.  Here the module
    variable [dbInstance] is state, and what [new Database] and the five
    [pragma] calls do when they are reached is given with each call. *)
Module Connection.

(** What happens if this call tries to open the database. *)
Inductive Attempt : Type :=
| open_fails                     (* [new Database] throws *)
| pragma_fails (applied : nat)   (* the open succeeds, a pragma throws
                                    after [applied] of them went through *)
| opens_ok.                      (* the open and the five pragmas succeed *)

(** A connection object: the number of the open that made it and the
    number of pragmas applied to it. *)
Record Database := mkDatabase {
  serial : nat;
  pragmas : nat
}.

Record Module_state := mkModule {
  dbInstance : option Database;
  opened : nat;                  (* successful [new Database] so far *)
  closed : nat                   (* [close()] calls so far *)
}.

Definition getDatabase (attempt : Attempt) (s : Module_state)
  : Result Database * Module_state :=
  match dbInstance s with
  | Some db => (Ok db, s)
  | None =>
      match attempt with
      | open_fails => (Throw "Database connection failed", s)
      | pragma_fails applied =>
          (Throw "Database connection failed",
           mkModule (Some (mkDatabase (opened s) applied)) (S (opened s)) (closed s))
      | opens_ok =>
          (Ok (mkDatabase (opened s) 5),
           mkModule (Some (mkDatabase (opened s) 5)) (S (opened s)) (closed s))
      end
  end.

Definition closeDatabase (s : Module_state) : Module_state :=
  match dbInstance s with
  | Some _ => mkModule None (opened s) (S (closed s))
  | None => s
  end.

(** A run of [getDatabase] calls with no [closeDatabase] in between. *)
Fixpoint calls (attempts : list Attempt) (s : Module_state)
  : list (Result Database) * Module_state :=
  match attempts with
  | [] => ([], s)
  | attempt :: rest =>
      let '(result, s') := getDatabase attempt s in
      let '(results, s'') := calls rest s' in
      (result :: results, s'')
  end.

(** The module as loaded: no connection, nothing opened or closed. *)
Definition loaded : Module_state := mkModule None 0 0.

(** A call of one of the two functions. *)
Inductive Op : Type :=
| get_database (attempt : Attempt)
| close_database.

Definition step (op : Op) (s : Module_state) : Module_state :=
  match op with
  | get_database attempt => snd (getDatabase attempt s)
  | close_database => closeDatabase s
  end.

(** The state after a sequence of calls. *)
Definition run (ops : list Op) (s : Module_state) : Module_state :=
  fold_left (fun s op => step op s) ops s.

End Connection.

(** * Helpers of the preview scripts *)

(** scripts/fetch-og-previews.js and scripts/fetch-preview-images.js
    ([slugify], [toCSVLine]) and scripts/fill-preview-placeholders.js
    ([toCSVLine]).  For characters outside ASCII, [toLowerCase] is taken
    to yield characters outside ASCII. *)
Module Preview.

Definition quote : ascii := "034"%char.
Definition line_feed : ascii := "010"%char.

(** [[a-z0-9]] *)
Definition is_slug_alnum (c : ascii) : bool :=
  ((97 <=? code c) && (code c <=? 122)) || ((48 <=? code c) && (code c <=? 57)).

(** [s.replace(/[^a-z0-9]+/g, '-')]; [in_run] tells that the character
    before belongs to a run that has been replaced already. *)
Fixpoint replace_runs (in_run : bool) (s : string) : string :=
  match s with
  | EmptyString => EmptyString
  | String c s' =>
      if is_slug_alnum c then String c (replace_runs false s')
      else if in_run then replace_runs true s'
      else String "-" (replace_runs true s')
  end.

(** A [-] at the end is removed. *)
Fixpoint strip_last_dash (s : string) : string :=
  match s with
  | EmptyString => EmptyString
  | String c EmptyString => if Ascii.eqb c "-" then EmptyString else s
  | String c s' => String c (strip_last_dash s')
  end.

(** [s.replace(/(^-|-$)/g, '')]: a [-] at the start is removed, and
    after it a [-] at the end. *)
Definition strip_dashes (s : string) : string :=
  strip_last_dash
    match s with
    | String c r => if Ascii.eqb c "-" then r else s
    | EmptyString => s
    end.

(** [slugify(value, fallback)]; [None] is a null or undefined value. *)
Definition slugify (value : option string) (fallback : string) : string :=
  let base :=
    match value with
    | Some v => if truthy_string v then v else fallback
    | None => fallback
    end in
  let slug := strip_dashes (replace_runs false (lower base)) in
  if truthy_string slug then slug else fallback.

(** The test of [toCSVLine] for a quote, a comma or a line feed in
    [str]. *)
Definition needs_quotes (str : string) : bool :=
  has_char quote str || has_char "," str || has_char line_feed str.

(** Every quote of [str] is doubled. *)
Fixpoint double_quotes (str : string) : string :=
  match str with
  | EmptyString => EmptyString
  | String c s' =>
      if Ascii.eqb c quote then String quote (String quote (double_quotes s'))
      else String c (double_quotes s')
  end.

(** One value of [toCSVLine]: [None] is null or undefined. *)
Definition csv_cell (value : option string) : string :=
  match value with
  | None => EmptyString
  | Some str =>
      if needs_quotes str
      then String quote (double_quotes str ++ String quote EmptyString)
      else str
  end.

Definition toCSVLine (values : list (option string)) : string :=
  String.concat "," (map csv_cell values).

End Preview.

(** A slug: runs of characters from [a-z0-9], separated by single [-],
    not empty and with no [-] at either end.  [after_dash] tells that the
    character before was a [-] (or that the string starts here). *)
Fixpoint slug_from (after_dash : bool) (s : string) : bool :=
  match s with
  | EmptyString => negb after_dash
  | String c s' =>
      if Preview.is_slug_alnum c then slug_from false s'
      else Ascii.eqb c "-" && negb after_dash && slug_from true s'
  end.

Definition is_slug (s : string) : bool := slug_from true s.

(** The same without the conditions on the two ends: the string may be
    empty and may start (unless [after_dash]) and end with a [-]. *)
Fixpoint dashed_from (after_dash : bool) (s : string) : bool :=
  match s with
  | EmptyString => true
  | String c s' =>
      if Preview.is_slug_alnum c then dashed_from false s'
      else Ascii.eqb c "-" && negb after_dash && dashed_from true s'
  end.

(** A value that is turned into a slug, as the preview scripts build it
    from a category and a row number. *)
Definition sample_reference : option string := Some "Style Principles-3".

(** The number of occurrences of a character. *)
Fixpoint count_char (c : ascii) (s : string) : nat :=
  match s with
  | EmptyString => 0%nat
  | String d s' => ((if Ascii.eqb d c then 1 else 0) + count_char c s')%nat
  end.

(** * The engagement score of the data-flow document *)

(** [calculate_engagement_score] (Python).  Numbers are exact rationals;
    [round(x, 2)] rounds to two decimal places, a tie to the even
    neighbour. *)
Module Scores.

(** [round(x)] to an integer, ties to even. *)
Definition round_half_even (x : Q) : Z :=
  let f := Qfloor x in
  let d := (x - inject_Z f)%Q in
  match (d ?= 1 # 2)%Q with
  | Lt => f
  | Gt => f + 1
  | Eq => if Z.even f then f else f + 1
  end.

(** [round(x, 2)] *)
Definition round2 (x : Q) : Q := (inject_Z (round_half_even (x * 100)) / 100)%Q.

(** [min(a, b)] *)
Definition min (a b : Q) : Q := if Qle_bool a b then a else b.

Definition calculate_engagement_score (views upvotes : Z) (time_spent : Q) : Q :=
  let normalized_views := min (inject_Z views / 5000) 1 in
  let normalized_upvotes := min (inject_Z upvotes / 300) 1 in
  let normalized_time := min (time_spent / 20) 1 in
  let engagement_score :=
    (normalized_views * (4 # 10) +
     normalized_upvotes * (4 # 10) +
     normalized_time * (2 # 10))%Q in
  round2 engagement_score.

End Scores.

(** * Properties *)

(** ** Insertion sort *)

Section SortingFacts.
Context {A : Type} (leb : A -> A -> bool).

Lemma insert_perm (x : A) (l : list A) : Permutation (x :: l) (insert leb x l).
Proof.
  induction l as [|y l IH]; simpl.
  - apply Permutation_refl.
  - destruct (leb x y).
    + apply Permutation_refl.
    + eapply perm_trans; [apply perm_swap|].
      now apply perm_skip.
Qed.

Lemma sort_perm (l : list A) : Permutation l (sort leb l).
Proof.
  induction l as [|x l IH]; simpl.
  - apply perm_nil.
  - eapply perm_trans; [apply perm_skip, IH|apply insert_perm].
Qed.

Lemma sort_In (x : A) (l : list A) : In x (sort leb l) <-> In x l.
Proof.
  split; intro H.
  - eapply Permutation_in; [apply Permutation_sym, sort_perm|exact H].
  - eapply Permutation_in; [apply sort_perm|exact H].
Qed.

Lemma sort_length (l : list A) : List.length (sort leb l) = List.length l.
Proof. symmetry. apply Permutation_length, sort_perm. Qed.

Hypothesis leb_total : forall x y, leb x y = true \/ leb y x = true.
Hypothesis leb_trans : forall x y z, leb x y = true -> leb y z = true -> leb x z = true.

Let le (x y : A) : Prop := leb x y = true.

Lemma insert_sorted (x : A) (l : list A) :
  StronglySorted le l -> StronglySorted le (insert leb x l).
Proof.
  induction 1 as [|y l Hs IH Hall]; simpl.
  - constructor; constructor.
  - destruct (leb x y) eqn:Hxy.
    + constructor.
      * now constructor.
      * constructor; [exact Hxy|].
        eapply Forall_impl; [|exact Hall].
        intros z Hz. eapply leb_trans; eassumption.
    + constructor; [exact IH|].
      assert (Hyx : le y x) by (destruct (leb_total x y); [congruence|assumption]).
      rewrite Forall_forall in *. intros z Hz.
      eapply Permutation_in in Hz; [|apply Permutation_sym, insert_perm].
      destruct Hz as [<-|Hz]; auto.
Qed.

Lemma sort_sorted (l : list A) : StronglySorted le (sort leb l).
Proof.
  induction l as [|x l IH]; simpl.
  - constructor.
  - now apply insert_sorted.
Qed.
End SortingFacts.

(** Sortedness survives taking a prefix, dropping a prefix and mapping
    along a relation-preserving function. *)
Section SortedSublists.
Context {A : Type} (R : A -> A -> Prop).


Lemma StronglySorted_firstn (n : nat) (l : list A) :
  StronglySorted R l -> StronglySorted R (firstn n l).
Proof.
  revert l. induction n as [|n IH]; intros l H; simpl; [constructor|].
  destruct l as [|x l]; [constructor|].
  inversion H as [|? ? Hs Hall]; subst.
  constructor; [now apply IH|].
  rewrite Forall_forall in *. intros y Hy. apply Hall.
  rewrite <- (firstn_skipn n l). apply in_or_app. now left.
Qed.

Lemma StronglySorted_map {B : Type} (S : B -> B -> Prop) (f : A -> B) (l : list A) :
  (forall x y, R x y -> S (f x) (f y)) ->
  StronglySorted R l -> StronglySorted S (map f l).
Proof.
  intros Hf. induction 1 as [|x l Hs IH Hall]; simpl; constructor; auto.
  rewrite Forall_forall in *. intros y Hy.
  apply in_map_iff in Hy. destruct Hy as [z [<- Hz]]. auto.
Qed.
End SortedSublists.

(** ** The result order *)







(** Every row a statement yields is a row of the table that satisfies the
    WHERE clause. *)
Lemma all_In (db : Table) (stmt : Statement) (r : ContentRecord) :
  In r (all db stmt) ->
  In r db /\ match stmt_where stmt with Some e => eval e r = true | None => True end.
Proof.
  unfold all, limit_offset. intros H.
  assert (Hin : In r (sort order_by_desc (where_filter (stmt_where stmt) db))).
  { destruct (stmt_limit stmt) as [n|]; [|exact H].
    set (rows := sort order_by_desc _) in *.
    set (k := Z.to_nat _) in *.
    assert (Hk : forall x, In x (skipn k rows) -> In x rows).
    { intros x Hx. rewrite <- (firstn_skipn k rows). apply in_or_app. now right. }
    destruct (n <? 0); [now apply Hk|].
    apply Hk. rewrite <- (firstn_skipn (Z.to_nat n) (skipn k rows)).
    apply in_or_app. now left. }
  apply sort_In in Hin. unfold where_filter in Hin.
  destruct (stmt_where stmt) as [e|].
  - apply filter_In in Hin. exact Hin.
  - split; [exact Hin|exact I].
Qed.

(** ** The data route on an available store *)

Lemma GET_available (db : Table) (searchParams : URLSearchParams) :
  DataRoute.GET (Some db) searchParams =
  json (map transform (all db (route_statement searchParams))).
Proof.
  unfold DataRoute.GET, route_statement.
  destruct (truthy_string (trim (or_string (get searchParams "search") ""))); reflexivity.
Qed.

Lemma GET_unavailable (searchParams : URLSearchParams) :
  DataRoute.GET None searchParams = json_error "Failed to load data from database" 500.
Proof.
  unfold DataRoute.GET.
  destruct (truthy_string (trim (or_string (get searchParams "search") ""))); reflexivity.
Qed.


(** ** LIKE and substring search *)

Lemma eqb_nocase_iff (c d : ascii) : eqb_nocase c d = true <-> to_lower c = to_lower d.
Proof. apply Ascii.eqb_eq. Qed.

Lemma like_any_run (pat s : string) :
  like (String "%" pat) s =
  like pat s ||
  match s with
  | EmptyString => false
  | String _ s' => like (String "%" pat) s'
  end.
Proof. destruct s; reflexivity. Qed.

Lemma like_literal (c : ascii) (pat s : string) :
  Ascii.eqb c "%" = false -> Ascii.eqb c "_" = false ->
  like (String c pat) s =
  match s with
  | EmptyString => false
  | String d s' => eqb_nocase c d && like pat s'
  end.
Proof.
  intros H1 H2. simpl. rewrite H1, H2. reflexivity.
Qed.

Lemma like_percent_all (s : string) : like "%" s = true.
Proof.
  induction s as [|c s IH]; rewrite like_any_run.
  - reflexivity.
  - rewrite IH. apply orb_true_r.
Qed.

Lemma like_literal_prefix (q s : string) :
  has_wildcard q = false -> like (q ++ "%")%string s = prefix_nocase q s.
Proof.
  revert s. induction q as [|c q IH]; intros s Hq; simpl append.
  - rewrite like_percent_all. now destruct s.
  - simpl in Hq. apply orb_false_elim in Hq. destruct Hq as [Hc Hq].
    apply orb_false_elim in Hc. destruct Hc as [H1 H2].
    rewrite (like_literal _ _ _ H1 H2).
    destruct s as [|d s]; [reflexivity|].
    simpl. now rewrite IH.
Qed.

Lemma like_contains (q s : string) :
  has_wildcard q = false ->
  like ("%" ++ q ++ "%")%string s = contains_nocase q s.
Proof.
  intros Hq. change ("%" ++ q ++ "%")%string with (String "%" (q ++ "%")).
  induction s as [|c s IH]; rewrite like_any_run, (like_literal_prefix _ _ Hq).
  - reflexivity.
  - rewrite IH. reflexivity.
Qed.

Lemma prefix_nocase_iff (q s : string) :
  prefix_nocase q s = true <->
  exists mid post : string, s = (mid ++ post)%string /\ lower mid = lower q.
Proof.
  revert s. induction q as [|c q IH]; intros s; simpl.
  - split; [intros _|reflexivity].
    exists EmptyString, s. split; reflexivity.
  - destruct s as [|d s].
    + split; [discriminate|].
      intros [mid [post [Hs Hl]]].
      destruct mid; simpl in *; discriminate.
    + rewrite andb_true_iff, eqb_nocase_iff, IH. split.
      * intros [Hcd [mid [post [Hs Hl]]]].
        exists (String d mid), post. simpl. rewrite Hs, Hl, Hcd. split; reflexivity.
      * intros [mid [post [Hs Hl]]].
        destruct mid as [|e mid]; simpl in *; [discriminate|].
        injection Hs as He Hs. injection Hl as Hc Hl. subst e.
        split; [congruence|]. exists mid, post. split; assumption.
Qed.

Lemma contains_nocase_iff (q s : string) :
  contains_nocase q s = true <-> occurs_nocase q s.
Proof.
  unfold occurs_nocase. induction s as [|c s IH]; simpl.
  - rewrite orb_false_r, prefix_nocase_iff. split.
    + intros [mid [post [Hs Hl]]]. exists EmptyString, mid, post. split; assumption.
    + intros [pre [mid [post [Hs Hl]]]].
      destruct pre; simpl in Hs; [|discriminate].
      exists mid, post. split; assumption.
  - rewrite orb_true_iff, prefix_nocase_iff, IH. split.
    + intros [[mid [post [Hs Hl]]]|[pre [mid [post [Hs Hl]]]]].
      * exists EmptyString, mid, post. split; assumption.
      * exists (String c pre), mid, post. simpl. rewrite Hs. split; [reflexivity|assumption].
    + intros [pre [mid [post [Hs Hl]]]].
      destruct pre as [|e pre]; simpl in Hs.
      * left. exists mid, post. split; assumption.
      * right. injection Hs as He Hs. exists pre, mid, post. split; assumption.
Qed.

(** X21: for a search text without [%] and [_], within what LIKE
    takes, the free-text predicate holds of a record exactly when the
    search text occurs, ignoring ASCII case, as a substring of its
    category, source, content_type or difficulty_level. *)
Theorem search_matches_substring (query : string) (r : ContentRecord) :
  has_wildcard query = false ->
  like_is_exact query [r] ->
  (search_predicate query r = true <->
   occurs_nocase query (category r) \/
   occurs_nocase query (source r) \/
   occurs_nocase query (content_type r) \/
   occurs_nocase query (difficulty_level r)).
Proof.
  intros Hq _. unfold search_predicate, search_clause. simpl eval.
  rewrite !(like_contains _ _ Hq), !orb_true_iff, !contains_nocase_iff.
  tauto.
Qed.

(** ** Query strings *)

Lemma get_without_same (name : string) (sp : URLSearchParams) :
  get (without name sp) name = None.
Proof.
  induction sp as [|[k v] sp IH]; simpl; [reflexivity|].
  destruct (String.eqb k name) eqn:Hk; simpl; [exact IH|].
  now rewrite Hk.
Qed.

Lemma get_without_other (name other : string) (sp : URLSearchParams) :
  name <> other -> get (without name sp) other = get sp other.
Proof.
  intros Hne. induction sp as [|[k v] sp IH]; simpl; [reflexivity|].
  destruct (String.eqb k name) eqn:Hk; simpl.
  - apply String.eqb_eq in Hk. subst k.
    apply String.eqb_neq in Hne. now rewrite Hne.
  - now rewrite IH.
Qed.

(** The route reads its query string only through seven parameters, five
    of them through their defaults. *)
Lemma GET_ext (store : Store) (sp sp' : URLSearchParams) :
  or_string (get sp "search") "" = or_string (get sp' "search") "" ->
  or_string (get sp "category") "All" = or_string (get sp' "category") "All" ->
  or_string (get sp "source") "All" = or_string (get sp' "source") "All" ->
  or_string (get sp "contentType") "" = or_string (get sp' "contentType") "" ->
  or_string (get sp "difficultyLevel") "" = or_string (get sp' "difficultyLevel") "" ->
  int_param sp "limit" = int_param sp' "limit" ->
  int_param sp "offset" = int_param sp' "offset" ->
  DataRoute.GET store sp = DataRoute.GET store sp'.
Proof.
  intros H1 H2 H3 H4 H5 H6 H7.
  unfold DataRoute.GET, DataRoute.filters_of.
  now rewrite H1, H2, H3, H4, H5, H6, H7.
Qed.

Lemma int_param_without_other (name other : string) (sp : URLSearchParams) :
  name <> other -> int_param (without name sp) other = int_param sp other.
Proof.
  intros Hne. unfold int_param. now rewrite get_without_other.
Qed.

Lemma int_param_without_same (name : string) (sp : URLSearchParams) :
  int_param (without name sp) name = None.
Proof.
  unfold int_param. now rewrite get_without_same.
Qed.

(** The statement of [getAllContent] has no OFFSET unless it has a LIMIT. *)
Lemma getAllContent_sql_no_limit (f : Filters.t) (off : option JSNumber) :
  bound_if_truthy (Filters.limit f) = None ->
  getAllContent_sql f =
  getAllContent_sql
    (Filters.mk (Filters.category f) (Filters.source f) (Filters.contentType f)
       (Filters.difficultyLevel f) None off).
Proof.
  intros H. unfold getAllContent_sql. simpl. now rewrite H.
Qed.

Lemma searchContent_sql_paging (q : string) (f : Filters.t) (lim off : option JSNumber) :
  searchContent_sql q f =
  searchContent_sql q
    (Filters.mk (Filters.category f) (Filters.source f) (Filters.contentType f)
       (Filters.difficultyLevel f) lim off).
Proof. reflexivity. Qed.

(** A falsy limit makes the route answer as if neither [limit] nor
    [offset] had been supplied. *)
Lemma GET_falsy_limit (store : Store) (sp : URLSearchParams) :
  bound_if_truthy (int_param sp "limit") = None ->
  DataRoute.GET store sp = DataRoute.GET store (without "limit" (without "offset" sp)).
Proof.
  intros H. unfold DataRoute.GET, DataRoute.filters_of.
  rewrite int_param_without_same.
  rewrite (int_param_without_other "limit" "offset"), int_param_without_same by discriminate.
  rewrite !(get_without_other "limit"), !(get_without_other "offset") by discriminate.
  unfold getAllContent, searchContent.
  rewrite (getAllContent_sql_no_limit _ None) by exact H.
  rewrite (searchContent_sql_paging _ _ None None).
  reflexivity.
Qed.

(** C9: an offset without a limit changes nothing: the data route
    answers a query string that has no limit parameter exactly as it
    answers the same query string with the offset parameter removed. *)
Theorem C9_offset_without_limit (store : Store) (searchParams : URLSearchParams) :
  get searchParams "limit" = None ->
  DataRoute.GET store searchParams =
  DataRoute.GET store (without "offset" searchParams).
Proof.
  intros H.
  assert (Hl : forall sp, get sp "limit" = None -> bound_if_truthy (int_param sp "limit") = None).
  { intros sp Hsp. unfold int_param. now rewrite Hsp. }
  rewrite (GET_falsy_limit store searchParams) by auto.
  rewrite (GET_falsy_limit store (without "offset" searchParams))
    by (apply Hl; rewrite get_without_other by discriminate; exact H).
  apply GET_ext; unfold int_param;
    rewrite ?(get_without_same "limit"), ?(get_without_other "limit") by discriminate;
    rewrite ?(get_without_same "offset"), ?(get_without_other "offset") by discriminate;
    rewrite ?(get_without_same "offset"), ?(get_without_other "offset") by discriminate;
    reflexivity.
Qed.

Lemma C9_offset_without_limit_witness :
  get [("source", "Instagram"); ("offset", "2")] "limit" = None /\
  DataRoute.GET (Some sample) [("source", "Instagram"); ("offset", "2")] =
  DataRoute.GET (Some sample) (without "offset" [("source", "Instagram"); ("offset", "2")]).
Proof.
  split; [reflexivity|].
  apply (C9_offset_without_limit (Some sample) [("source", "Instagram"); ("offset", "2")]).
  reflexivity.
Defined.

(** ** Pagination *)

(** Two query strings that agree on the search text and on the four
    filters, and whose limits are both falsy, get the same answer. *)
Lemma GET_falsy_limits (store : Store) (sp sp' : URLSearchParams) :
  get sp "search" = get sp' "search" ->
  get sp "category" = get sp' "category" ->
  get sp "source" = get sp' "source" ->
  get sp "contentType" = get sp' "contentType" ->
  get sp "difficultyLevel" = get sp' "difficultyLevel" ->
  bound_if_truthy (int_param sp "limit") = None ->
  bound_if_truthy (int_param sp' "limit") = None ->
  DataRoute.GET store sp = DataRoute.GET store sp'.
Proof.
  intros H1 H2 H3 H4 H5 Hl Hl'.
  rewrite (GET_falsy_limit store sp Hl), (GET_falsy_limit store sp' Hl').
  apply GET_ext;
    rewrite ?int_param_without_same;
    rewrite ?(int_param_without_other "limit" "offset") by discriminate;
    rewrite ?int_param_without_same;
    rewrite ?(get_without_other "limit"), ?(get_without_other "offset") by discriminate;
    rewrite ?H1, ?H2, ?H3, ?H4, ?H5; reflexivity.
Qed.








(** C4 fails on the search path: [searchContent] composes neither LIMIT
    nor OFFSET.  For [search=fashion&limit=1] the data route returns the
    two records that match "fashion", and for
    [search=fashion&limit=1&offset=1] the same two, none skipped. *)
Theorem C4_search_ignores_limit :
  int_param search_page_query "limit" = Some (Num 1) /\
  DataRoute.GET (Some sample) search_page_query = json (map transform [row3; row1]) /\
  int_param search_page_offset_query "offset" = Some (Num 1) /\
  DataRoute.GET (Some sample) search_page_offset_query =
    json (map transform [row3; row1]).
Proof.
  repeat split.
Qed.

(** ** The literal "All" *)

(** C3 (amended): for the category and the source parameter, the value
    "All" gets exactly the answer of the query string without that
    parameter, whatever the store and the other parameters are. *)
Theorem C3_All_is_no_filter (store : Store) (searchParams : URLSearchParams) (name : string) :
  name = "category" \/ name = "source" ->
  get searchParams name = Some "All" ->
  DataRoute.GET store searchParams = DataRoute.GET store (without name searchParams).
Proof.
  intros [-> | ->] H; apply GET_ext; unfold int_param;
    rewrite ?get_without_same, ?H;
    rewrite ?(get_without_other "category"), ?(get_without_other "source") by discriminate;
    reflexivity.
Qed.

Lemma C3_All_is_no_filter_witness :
  ("category" = "category" \/ "category" = "source") /\
  get all_categories_query "category" = Some "All" /\
  DataRoute.GET (Some sample) all_categories_query =
  DataRoute.GET (Some sample) (without "category" all_categories_query).
Proof.
  split; [now left|]. split; [reflexivity|].
  apply (C3_All_is_no_filter (Some sample) all_categories_query "category");
    [now left|reflexivity].
Defined.

(** For the content type and the difficulty level it is the empty value
    that gets the answer of the query string without the parameter. *)
Lemma empty_is_no_filter (store : Store) (searchParams : URLSearchParams) (name : string) :
  name = "contentType" \/ name = "difficultyLevel" ->
  get searchParams name = Some "" ->
  DataRoute.GET store searchParams = DataRoute.GET store (without name searchParams).
Proof.
  intros [-> | ->] H; apply GET_ext; unfold int_param;
    rewrite ?get_without_same, ?H;
    rewrite ?(get_without_other "contentType"), ?(get_without_other "difficultyLevel")
      by discriminate;
    reflexivity.
Qed.

(** C3 as stated fails for content_type: [contentType=All] selects the
    records whose content type is the string "All", of which the sample
    table has none, while the query without the parameter returns all. *)
Lemma C3_counterexample :
  get all_content_types_query "contentType" = Some "All" /\
  DataRoute.GET (Some sample) all_content_types_query = json [] /\
  DataRoute.GET (Some sample) (without "contentType" all_content_types_query) =
    json (map transform [row2; row3; row1]).
Proof.
  repeat split; reflexivity.
Qed.

(** ** Filters and search text together *)

(** C1 fails on the search path: for [search=fashion&contentType=Video]
    the route returns the two records whose category contains "fashion",
    an Article and a Reel, and no Video. *)
Theorem C1_search_ignores_content_type :
  DataRoute.GET (Some sample) search_video_query =
    json (map transform [row3; row1]) /\
  get search_video_query "contentType" = Some "Video" /\
  Content_Type (transform row3) <> "Video" /\
  Content_Type (transform row1) <> "Video".
Proof.
  repeat split; try reflexivity; simpl; discriminate.
Qed.

(** ** Malformed numbers *)

(** C5 fails: for [limit=abc] the route does not report an error; it
    answers with the same 200 response as for the empty query string, and
    for [limit=2&offset=abc] with the same response as for [limit=2]. *)
Theorem C5_malformed_numbers_are_accepted (db : Table) :
  parseInt "abc" = NaN /\
  DataRoute.GET (Some db) [("limit", "abc")] = DataRoute.GET (Some db) [] /\
  DataRoute.GET (Some db) [("limit", "2"); ("offset", "abc")] =
    DataRoute.GET (Some db) [("limit", "2")] /\
  exists body, DataRoute.GET (Some db) [("limit", "abc")] = json body.
Proof.
  split; [reflexivity|]. split; [|split].
  - apply GET_falsy_limits; reflexivity.
  - rewrite !GET_available. reflexivity.
  - eexists. apply GET_available.
Qed.

(** ** The order of strings *)





(** ** Aggregates *)







(** C2 fails for the two sums: on the empty table the statistics route
    does answer, with the count 0 and the mean 0, and with null for the
    sum of the upvotes and for the sum of the views. *)
Theorem C2_empty_table_sums_are_null :
  exists body,
    StatsRoute.GET (Some []) = json body /\
    totalContent (StatsRoute.stats body) = 0 /\
    (avgTimeSpent (StatsRoute.stats body) == 0)%Q /\
    totalUpvotes (StatsRoute.stats body) = None /\
    totalViews (StatsRoute.stats body) = None.
Proof.
  eexists. split; [reflexivity|]. repeat split.
Qed.

(** C7 fails for the search text [_], which [searchContent] puts into
    the LIKE pattern as it is: it matches the category "Style Principles"
    of the second sample record and occurs in none of its four fields,
    and the data route answers the search with all three records. *)
Theorem C7_underscore_matches_any_character :
  search_predicate "_" row2 = true /\
  ~ (occurs_nocase "_" (category row2) \/
     occurs_nocase "_" (source row2) \/
     occurs_nocase "_" (content_type row2) \/
     occurs_nocase "_" (difficulty_level row2)) /\
  DataRoute.GET (Some sample) underscore_query = json (map transform [row2; row3; row1]).
Proof.
  split; [reflexivity|]. split; [|reflexivity].
  rewrite <- !contains_nocase_iff. vm_compute. intuition discriminate.
Qed.

Lemma search_matches_substring_witness :
  has_wildcard "fashion" = false /\
  like_is_exact "fashion" [row3] /\
  (search_predicate "fashion" row3 = true <->
   occurs_nocase "fashion" (category row3) \/
   occurs_nocase "fashion" (source row3) \/
   occurs_nocase "fashion" (content_type row3) \/
   occurs_nocase "fashion" (difficulty_level row3)).
Proof.
  assert (Hx : like_is_exact "fashion" [row3]).
  { unfold like_is_exact. split; [simpl; lia|]. repeat split. now left. }
  split; [reflexivity|]. split; [exact Hx|].
  apply (search_matches_substring "fashion" row3); [reflexivity|exact Hx].
Defined.

(** ** What the returned records satisfy *)

(** The WHERE clause of [getAllContent] holds of a row only if the row
    passes each of the four filters that is set. *)
Lemma getAllContent_sql_where (f : Filters.t) (r : ContentRecord) :
  match stmt_where (getAllContent_sql f) with
  | Some e => eval e r = true
  | None => True
  end ->
  (set_and_not_All (Filters.category f) = true ->
   category r = string_of (Filters.category f)) /\
  (set_and_not_All (Filters.source f) = true ->
   source r = string_of (Filters.source f)) /\
  (truthy_opt truthy_string (Filters.contentType f) = true ->
   content_type r = string_of (Filters.contentType f)) /\
  (truthy_opt truthy_string (Filters.difficultyLevel f) = true ->
   difficulty_level r = string_of (Filters.difficultyLevel f)).
Proof.
  unfold getAllContent_sql.
  destruct (set_and_not_All (Filters.category f));
    destruct (set_and_not_All (Filters.source f));
    destruct (truthy_opt truthy_string (Filters.contentType f));
    destruct (truthy_opt truthy_string (Filters.difficultyLevel f));
    simpl; rewrite ?andb_true_iff, ?String.eqb_eq;
    intuition discriminate.
Qed.

(** The WHERE clause of [searchContent] holds of a row only if the row
    passes the free-text predicate and those of the category and source
    filters that are set. *)
Lemma searchContent_sql_where (query : string) (f : Filters.t) (r : ContentRecord) :
  match stmt_where (searchContent_sql query f) with
  | Some e => eval e r = true
  | None => True
  end ->
  search_predicate query r = true /\
  (set_and_not_All (Filters.category f) = true ->
   category r = string_of (Filters.category f)) /\
  (set_and_not_All (Filters.source f) = true ->
   source r = string_of (Filters.source f)).
Proof.
  unfold searchContent_sql, search_predicate.
  destruct (set_and_not_All (Filters.category f));
    destruct (set_and_not_All (Filters.source f));
    cbn [stmt_where eval]; rewrite ?andb_true_iff, ?String.eqb_eq;
    intuition discriminate.
Qed.

Lemma set_and_not_All_param (sp : URLSearchParams) (name v : string) :
  get sp name = Some v -> v <> "" -> v <> "All" ->
  set_and_not_All (Some (or_string (get sp name) "All")) = true /\
  or_string (get sp name) "All" = v.
Proof.
  intros H Hne Hall. rewrite H. unfold or_string, set_and_not_All.
  destruct v as [|c v]; [contradiction|].
  apply String.eqb_neq in Hall.
  cbn [truthy_string truthy_opt]. rewrite Hall. split; reflexivity.
Qed.

Lemma truthy_param (sp : URLSearchParams) (name v : string) :
  get sp name = Some v -> v <> "" ->
  truthy_opt truthy_string (or_undefined (or_string (get sp name) "")) = true /\
  string_of (or_undefined (or_string (get sp name) "")) = v.
Proof.
  intros H Hne. rewrite H.
  destruct v as [|c v]; [contradiction|]. split; reflexivity.
Qed.

(** Without search text, every returned record passes every filter that
    is supplied: category and source unless "All", content type and
    difficulty level unless empty. *)
Lemma filters_hold_without_search (db : Table) (sp : URLSearchParams)
      (body : list DashboardItem) (item : DashboardItem) :
  no_search sp ->
  DataRoute.GET (Some db) sp = json body ->
  In item body ->
  (forall v, get sp "category" = Some v -> v <> "" -> v <> "All" -> Category item = v) /\
  (forall v, get sp "source" = Some v -> v <> "" -> v <> "All" -> Source item = v) /\
  (forall v, get sp "contentType" = Some v -> v <> "" -> Content_Type item = v) /\
  (forall v, get sp "difficultyLevel" = Some v -> v <> "" -> Difficulty_Level item = v).
Proof.
  intros Hs Hget Hin.
  rewrite GET_available in Hget. injection Hget as <-.
  apply in_map_iff in Hin. destruct Hin as [r [<- Hr]].
  apply all_In in Hr. destruct Hr as [_ Hw].
  unfold route_statement in Hw. unfold no_search in Hs. rewrite Hs in Hw.
  cbn [truthy_string] in Hw.
  apply getAllContent_sql_where in Hw.
  destruct Hw as [Hc [Hso [Hct Hdl]]]. cbn [transform Category Source Content_Type Difficulty_Level].
  unfold DataRoute.filters_of in *. cbn [Filters.category Filters.source Filters.contentType Filters.difficultyLevel] in *.
  repeat split; intros v Hv Hne.
  - intros Hall. destruct (set_and_not_All_param sp _ v Hv Hne Hall) as [H1 H2].
    rewrite (Hc H1). exact H2.
  - intros Hall. destruct (set_and_not_All_param sp _ v Hv Hne Hall) as [H1 H2].
    rewrite (Hso H1). exact H2.
  - destruct (truthy_param sp _ v Hv Hne) as [H1 H2].
    rewrite (Hct H1). exact H2.
  - destruct (truthy_param sp _ v Hv Hne) as [H1 H2].
    rewrite (Hdl H1). exact H2.
Qed.

(** With search text, every returned record passes the free-text
    predicate and the category and source filters that are supplied. *)
Lemma search_and_two_filters_hold (db : Table) (sp : URLSearchParams)
      (body : list DashboardItem) (item : DashboardItem) :
  ~ no_search sp ->
  DataRoute.GET (Some db) sp = json body ->
  In item body ->
  exists r,
    item = transform r /\ In r db /\
    search_predicate (or_string (get sp "search") "") r = true /\
    (forall v, get sp "category" = Some v -> v <> "" -> v <> "All" -> category r = v) /\
    (forall v, get sp "source" = Some v -> v <> "" -> v <> "All" -> source r = v).
Proof.
  intros Hs Hget Hin.
  rewrite GET_available in Hget. injection Hget as <-.
  apply in_map_iff in Hin. destruct Hin as [r [<- Hr]].
  apply all_In in Hr. destruct Hr as [Hdb Hw].
  unfold route_statement in Hw. unfold no_search in Hs.
  destruct (trim (or_string (get sp "search") "")) eqn:Et; [contradiction Hs; reflexivity|].
  cbn [truthy_string] in Hw.
  apply searchContent_sql_where in Hw.
  destruct Hw as [Hq [Hc Hso]].
  unfold DataRoute.filters_of in *. cbn [Filters.category Filters.source] in *.
  exists r. repeat split; auto; intros v Hv Hne Hall.
  - destruct (set_and_not_All_param sp _ v Hv Hne Hall) as [H1 H2].
    rewrite (Hc H1). exact H2.
  - destruct (set_and_not_All_param sp _ v Hv Hne Hall) as [H1 H2].
    rewrite (Hso H1). exact H2.
Qed.

(** The example of the specification: of the three sample records only
    the first is from Instagram with "fashion" in its category. *)
Example instagram_fashion :
  DataRoute.GET (Some sample) [("source", "Instagram"); ("search", "fashion")] =
  json [transform row1].
Proof. reflexivity. Qed.

(** * The rest of the data layer *)

(** ** What [getAllContent] and [searchContent] select *)

Lemma getAllContent_sql_passes (f : Filters.t) (r : ContentRecord) :
  match stmt_where (getAllContent_sql f) with
  | Some e => eval e r
  | None => true
  end = passes_filters f r.
Proof.
  unfold getAllContent_sql, passes_filters, passes_unless_All, passes_unless_empty,
    set_and_not_All.
  destruct f as [c s ct dl lim off]. cbn [Filters.category Filters.source
    Filters.contentType Filters.difficultyLevel Filters.limit Filters.offset].
  destruct c as [[|c0 c]|]; destruct s as [[|s0 s]|];
    destruct ct as [[|ct0 ct]|]; destruct dl as [[|dl0 dl]|];
    cbn [truthy_opt truthy_string string_of andb negb];
    try destruct (String.eqb (String c0 c) "All");
    try destruct (String.eqb (String s0 s) "All");
    cbn [andb negb orb app where_of fold_left stmt_where eval column_value String.eqb];
    rewrite ?andb_true_r; reflexivity.
Qed.

Lemma where_filter_getAllContent (f : Filters.t) (db : Table) :
  where_filter (stmt_where (getAllContent_sql f)) db = filter (passes_filters f) db.
Proof.
  unfold where_filter.
  pose proof (getAllContent_sql_passes f) as H.
  destruct (stmt_where (getAllContent_sql f)) as [e|].
  - apply filter_ext. exact H.
  - induction db as [|r db IH]; [reflexivity|].
    simpl. rewrite <- H, <- IH. reflexivity.
Qed.

Lemma searchContent_sql_passes (query : string) (f : Filters.t) (r : ContentRecord) :
  match stmt_where (searchContent_sql query f) with
  | Some e => eval e r
  | None => true
  end = passes_search query f r.
Proof.
  unfold searchContent_sql, passes_search, passes_unless_All, set_and_not_All,
    search_predicate.
  destruct f as [c s ct dl lim off].
  cbn [Filters.category Filters.source].
  destruct c as [[|c0 c]|]; destruct s as [[|s0 s]|];
    cbn [truthy_opt truthy_string string_of andb negb];
    try destruct (String.eqb (String c0 c) "All");
    try destruct (String.eqb (String s0 s) "All");
    cbn [andb negb orb stmt_where eval column_value String.eqb];
    rewrite ?andb_true_r; reflexivity.
Qed.

Lemma where_filter_searchContent (query : string) (f : Filters.t) (db : Table) :
  where_filter (stmt_where (searchContent_sql query f)) db =
  filter (passes_search query f) db.
Proof.
  unfold where_filter.
  pose proof (searchContent_sql_passes query f) as H.
  destruct (stmt_where (searchContent_sql query f)) as [e|] eqn:E.
  - apply filter_ext. exact H.
  - discriminate E.
Qed.

(** X1: on an available store, with a limit and an offset that a double
    holds exactly, [getAllContent] returns only rows of the table that
    pass all four filters, and without a truthy limit it returns every
    such row, each as often as the table has it. *)
Theorem getAllContent_selects (db : Table) (f : Filters.t) :
  exact_number (Filters.limit f) ->
  exact_number (Filters.offset f) ->
  exists rows,
    getAllContent (Some db) f = Ok rows /\
    (forall r, In r rows -> In r db /\ passes_filters f r = true) /\
    (bound_if_truthy (Filters.limit f) = None ->
     Permutation rows (filter (passes_filters f) db)).
Proof.
  intros _ _.
  eexists. split; [reflexivity|]. split.
  - intros r Hr. apply all_In in Hr. destruct Hr as [Hdb Hw].
    split; [exact Hdb|].
    rewrite <- getAllContent_sql_passes.
    destruct (stmt_where (getAllContent_sql f)); [exact Hw|reflexivity].
  - intros Hl. unfold all. rewrite where_filter_getAllContent.
    replace (stmt_limit (getAllContent_sql f)) with (@None Z)
      by (unfold getAllContent_sql; simpl; now rewrite Hl).
    unfold limit_offset. apply Permutation_sym, sort_perm.
Qed.

Lemma getAllContent_selects_witness :
  exact_number (Filters.limit (with_page Filters.empty 2 1)) /\
  exact_number (Filters.offset (with_page Filters.empty 2 1)) /\
  exists rows,
    getAllContent (Some sample) (with_page Filters.empty 2 1) = Ok rows /\
    (forall r, In r rows ->
       In r sample /\ passes_filters (with_page Filters.empty 2 1) r = true) /\
    (bound_if_truthy (Filters.limit (with_page Filters.empty 2 1)) = None ->
     Permutation rows (filter (passes_filters (with_page Filters.empty 2 1)) sample)).
Proof.
  split; [simpl; lia|]. split; [simpl; lia|].
  apply (getAllContent_selects sample (with_page Filters.empty 2 1)); simpl; lia.
Defined.

(** X2: on an available store, for a search text and a table on which
    LIKE is exact, [searchContent] returns exactly the rows that pass the
    free-text predicate, the category filter and the source filter, each
    as often as the table has it; the content type, the difficulty
    level, the limit and the offset of [filters] have no effect on its
    result. *)
Theorem searchContent_selects (db : Table) (query : string) (f : Filters.t) :
  like_is_exact query db ->
  (exists rows,
     searchContent (Some db) query f = Ok rows /\
     Permutation rows (filter (passes_search query f) db)) /\
  (forall f' : Filters.t,
     Filters.category f' = Filters.category f ->
     Filters.source f' = Filters.source f ->
     searchContent (Some db) query f' = searchContent (Some db) query f).
Proof.
  intros _.
  split.
  - eexists. split; [reflexivity|].
    unfold all. rewrite where_filter_searchContent.
    change (stmt_limit (searchContent_sql query f)) with (@None Z).
    unfold limit_offset. apply Permutation_sym, sort_perm.
  - intros f' Hc Hs. unfold searchContent, searchContent_sql.
    rewrite Hc, Hs. reflexivity.
Qed.

Lemma fashion_is_exact : like_is_exact "fashion" sample.
Proof.
  unfold like_is_exact. split; [simpl; lia|].
  split; [reflexivity|]. split; [reflexivity|]. left. reflexivity.
Defined.

Lemma searchContent_selects_witness :
  like_is_exact "fashion" sample /\
  (exists rows,
     searchContent (Some sample) "fashion" Filters.empty = Ok rows /\
     Permutation rows (filter (passes_search "fashion" Filters.empty) sample)) /\
  (forall f' : Filters.t,
     Filters.category f' = Filters.category Filters.empty ->
     Filters.source f' = Filters.source Filters.empty ->
     searchContent (Some sample) "fashion" f' =
     searchContent (Some sample) "fashion" Filters.empty).
Proof.
  split; [exact fashion_is_exact|].
  apply (searchContent_selects sample "fashion" Filters.empty fashion_is_exact).
Defined.

(** ** Pages *)

Lemma firstn_add {A : Type} (n m : nat) (l : list A) :
  firstn (n + m) l = firstn n l ++ firstn m (skipn n l).
Proof.
  revert l. induction n as [|n IH]; intros l; simpl; [reflexivity|].
  destruct l as [|x l]; simpl.
  - now rewrite firstn_nil.
  - now rewrite IH.
Qed.

Lemma skipn_add {A : Type} (n m : nat) (l : list A) :
  skipn (n + m) l = skipn m (skipn n l).
Proof.
  revert l. induction n as [|n IH]; intros l; simpl; [reflexivity|].
  destruct l as [|x l]; simpl.
  - now rewrite skipn_nil.
  - apply IH.
Qed.

Lemma getAllContent_page (db : Table) (f : Filters.t) (N K : Z) :
  1 <= N -> 0 <= K ->
  getAllContent (Some db) (with_page f N K) =
  Ok (firstn (Z.to_nat N)
        (skipn (Z.to_nat K) (sort order_by_desc (filter (passes_filters f) db)))).
Proof.
  intros HN HK. unfold getAllContent. cbn [getDatabase bind try_rethrow].
  f_equal. unfold all.
  rewrite where_filter_getAllContent.
  change (passes_filters (with_page f N K)) with (passes_filters f).
  assert (Hl : stmt_limit (getAllContent_sql (with_page f N K)) = Some N).
  { unfold getAllContent_sql. simpl. destruct (N =? 0) eqn:E; [lia|reflexivity]. }
  assert (Ho : Z.to_nat
                 match stmt_offset (getAllContent_sql (with_page f N K)) with
                 | Some k => Z.max 0 k
                 | None => 0
                 end = Z.to_nat K).
  { unfold getAllContent_sql. simpl. destruct (N =? 0) eqn:E; [lia|].
    simpl. destruct (K =? 0) eqn:EK; simpl; lia. }
  unfold limit_offset. rewrite Hl, Ho.
  assert (Hneg : (N <? 0) = false) by lia. rewrite Hneg. reflexivity.
Qed.

(** X3: consecutive pages fit together.  For limits N, M >= 1 and an
    offset K >= 0 with K + N + M at most 2^53, the page of N rows at
    offset K followed by the page of M rows at offset K + N is the page
    of N + M rows at offset K. *)
Theorem pages_concatenate (db : Table) (f : Filters.t) (N M K : Z) :
  1 <= N -> 1 <= M -> 0 <= K -> K + N + M <= 2 ^ 53 ->
  exists p1 p2 p12,
    getAllContent (Some db) (with_page f N K) = Ok p1 /\
    getAllContent (Some db) (with_page f M (K + N)) = Ok p2 /\
    getAllContent (Some db) (with_page f (N + M) K) = Ok p12 /\
    p1 ++ p2 = p12.
Proof.
  intros HN HM HK _.
  rewrite !getAllContent_page by lia.
  do 3 eexists. repeat split.
  rewrite !Z2Nat.inj_add by lia.
  rewrite skipn_add, firstn_add. reflexivity.
Qed.

Lemma pages_concatenate_witness :
  1 <= 1 /\ 1 <= 2 /\ 0 <= 0 /\ 0 + 1 + 2 <= 2 ^ 53 /\
  exists p1 p2 p12,
    getAllContent (Some sample) (with_page Filters.empty 1 0) = Ok p1 /\
    getAllContent (Some sample) (with_page Filters.empty 2 (0 + 1)) = Ok p2 /\
    getAllContent (Some sample) (with_page Filters.empty (1 + 2) 0) = Ok p12 /\
    p1 ++ p2 = p12.
Proof.
  split; [lia|]. split; [lia|]. split; [lia|]. split; [lia|].
  apply (pages_concatenate sample Filters.empty 1 2 0); lia.
Defined.

(** ** Search text *)

(** X6: a search parameter that is absent, empty or white space only is
    no search: the data route answers as for the query string without
    it. *)
Theorem blank_search_is_no_search (store : Store) (searchParams : URLSearchParams) :
  no_search searchParams ->
  DataRoute.GET store searchParams =
  DataRoute.GET store (without "search" searchParams).
Proof.
  unfold no_search. intros H.
  unfold DataRoute.GET, DataRoute.filters_of, int_param.
  rewrite get_without_same, !(get_without_other "search") by discriminate.
  rewrite H. reflexivity.
Qed.

Lemma blank_search_is_no_search_witness :
  no_search [("search", "   "); ("source", "TikTok")] /\
  DataRoute.GET (Some sample) [("search", "   "); ("source", "TikTok")] =
  DataRoute.GET (Some sample) (without "search" [("search", "   "); ("source", "TikTok")]).
Proof.
  split; [reflexivity|].
  apply (blank_search_is_no_search (Some sample) [("search", "   "); ("source", "TikTok")]).
  reflexivity.
Defined.

Lemma to_lower_wildcard (c : ascii) :
  (to_lower c = "%"%char -> c = "%"%char) /\ (to_lower c = "_"%char -> c = "_"%char).
Proof.
  destruct c as [[] [] [] [] [] [] [] []];
    split; intros H; vm_compute in H; first [discriminate H | exact H].
Qed.

Lemma eqb_wildcard_lower (c d w : ascii) :
  w = "%"%char \/ w = "_"%char ->
  to_lower c = to_lower d -> Ascii.eqb c w = Ascii.eqb d w.
Proof.
  intros Hw H.
  assert (forall x y, to_lower x = to_lower y -> x = w -> y = w) as Hxy.
  { intros x y Hl ->. destruct Hw as [-> | ->].
    - apply (to_lower_wildcard y). now rewrite <- Hl.
    - apply (to_lower_wildcard y). now rewrite <- Hl. }
  destruct (Ascii.eqb c w) eqn:Ec, (Ascii.eqb d w) eqn:Ed; try reflexivity.
  - apply Ascii.eqb_eq in Ec. apply Ascii.eqb_neq in Ed.
    exfalso. apply Ed. now apply (Hxy c d).
  - apply Ascii.eqb_eq in Ed. apply Ascii.eqb_neq in Ec.
    exfalso. apply Ec. now apply (Hxy d c).
Qed.

Lemma like_one (pat s : string) :
  like (String "_" pat) s =
  match s with
  | EmptyString => false
  | String _ s' => like pat s'
  end.
Proof. destruct s; reflexivity. Qed.

(** LIKE does not tell patterns apart that differ in ASCII case only. *)
Lemma like_lower (pat pat' : string) :
  lower pat = lower pat' -> forall s, like pat s = like pat' s.
Proof.
  revert pat'. induction pat as [|p pat IH]; intros [|p' pat'] H; try discriminate.
  - reflexivity.
  - simpl in H. injection H as Hp Hrest. specialize (IH pat' Hrest).
    pose proof (eqb_wildcard_lower p p' "%" (or_introl eq_refl) Hp) as E1.
    pose proof (eqb_wildcard_lower p p' "_" (or_intror eq_refl) Hp) as E2.
    destruct (Ascii.eqb p "%") eqn:Ep.
    + symmetry in E1. apply Ascii.eqb_eq in Ep, E1. subst p p'.
      induction s as [|c s IHs];
        rewrite (like_any_run pat), (like_any_run pat'), IH; [reflexivity|].
      now rewrite IHs.
    + destruct (Ascii.eqb p "_") eqn:Eu.
      * symmetry in E2. apply Ascii.eqb_eq in Eu, E2. subst p p'.
        intros s. rewrite !like_one. destruct s; [reflexivity|apply IH].
      * intros s. symmetry in E1, E2.
        rewrite (like_literal p _ _ Ep Eu), (like_literal p' _ _ E1 E2).
        destruct s as [|c s]; [reflexivity|].
        unfold eqb_nocase. now rewrite Hp, IH.
Qed.

Lemma lower_append (a b : string) : lower (a ++ b) = (lower a ++ lower b)%string.
Proof.
  induction a as [|c a IH]; simpl; [reflexivity|]. now rewrite IH.
Qed.

(** X5: the search text is matched without regard to ASCII case: two
    search texts that are equal after lower-casing give the same result
    of [searchContent], whatever the store and the filters. *)
Theorem search_ignores_case (store : Store) (query query' : string) (f : Filters.t) :
  lower query = lower query' ->
  searchContent store query f = searchContent store query' f.
Proof.
  intros H. destruct store as [db|]; [|reflexivity].
  unfold searchContent. cbn [getDatabase bind try_rethrow]. f_equal.
  unfold all. rewrite !where_filter_searchContent.
  change (stmt_limit (searchContent_sql query f)) with (@None Z).
  change (stmt_limit (searchContent_sql query' f)) with (@None Z).
  unfold limit_offset. f_equal.
  apply filter_ext. intros r.
  unfold passes_search, search_predicate, search_clause. cbn [eval].
  assert (Hp : forall s, like ("%" ++ query ++ "%") s = like ("%" ++ query' ++ "%") s).
  { apply like_lower. rewrite !lower_append, H. reflexivity. }
  now rewrite !Hp.
Qed.

Lemma search_ignores_case_witness :
  lower "FaShIoN" = lower "fashion" /\
  searchContent (Some sample) "FaShIoN" Filters.empty =
  searchContent (Some sample) "fashion" Filters.empty.
Proof.
  split; [reflexivity|].
  apply (search_ignores_case (Some sample) "FaShIoN" "fashion" Filters.empty).
  reflexivity.
Defined.

(** ** The two routes together *)


(** * The dashboard page *)

(** ** [trim] *)

Lemma trimEnd_idem (s : string) : trimEnd (trimEnd s) = trimEnd s.
Proof.
  induction s as [|c s IH]; [reflexivity|].
  simpl. destruct (trimEnd s) as [|d t] eqn:E.
  - destruct (is_white_space c) eqn:Ec; [reflexivity|].
    simpl. now rewrite Ec.
  - simpl. simpl in IH. rewrite IH. reflexivity.
Qed.

Lemma trimStart_trimEnd (s : string) :
  trimStart s = s -> trimStart (trimEnd s) = trimEnd s.
Proof.
  destruct s as [|c s]; [reflexivity|].
  simpl. destruct (is_white_space c) eqn:Ec.
  - intros H. exfalso.
    assert (Hlen : forall t, (String.length (trimStart t) <= String.length t)%nat).
    { induction t as [|x t IHt]; simpl; [lia|].
      destruct (is_white_space x); simpl; lia. }
    specialize (Hlen s). rewrite H in Hlen. simpl in Hlen. lia.
  - intros _. destruct (trimEnd s); simpl; now rewrite Ec.
Qed.

Lemma trimStart_idem (s : string) : trimStart (trimStart s) = trimStart s.
Proof.
  induction s as [|c s IH]; [reflexivity|].
  simpl. destruct (is_white_space c) eqn:Ec; [exact IH|].
  simpl. now rewrite Ec.
Qed.

Lemma trim_idem (s : string) : trim (trim s) = trim s.
Proof.
  unfold trim.
  rewrite (trimStart_trimEnd (trimStart s) (trimStart_idem s)).
  apply trimEnd_idem.
Qed.

(** ** The request of [fetchData] *)

Lemma fetchData_params_get (search category source : string) :
  let sp := Dashboard.fetchData_params search category source in
  get sp "search" = (if truthy_string (trim search) then Some (trim search) else None) /\
  get sp "category" = (if String.eqb category "All" then None else Some category) /\
  get sp "source" = (if String.eqb source "All" then None else Some source).
Proof.
  unfold Dashboard.fetchData_params.
  destruct (truthy_string (trim search)),
    (String.eqb category "All"), (String.eqb source "All");
    repeat split; reflexivity.
Qed.

Lemma fetchData_params_no_search (search category source : string) :
  no_search (Dashboard.fetchData_params search category source) <-> trim search = "".
Proof.
  unfold no_search.
  destruct (fetchData_params_get search category source) as [Hs _]. rewrite Hs.
  destruct (trim search) as [|c t] eqn:E.
  - simpl. split; reflexivity.
  - cbn [truthy_string or_string]. rewrite <- E, trim_idem, E.
    split; intros H; discriminate H.
Qed.

(** X8: what the page shows after [fetchData], for a search term of
    ASCII characters whose trimmed text LIKE handles exactly on the
    table.  On an available store every record shown is a row of the
    table; it has the selected category and the selected source, unless
    the selection is "All" or empty, and when the trimmed search term is
    not empty it passes the free-text predicate for the trimmed term.
    On an unavailable store the records shown before stay. *)
Theorem dashboard_shows_selection (db : Table) (st : Dashboard.State)
        (search selCategory selSource : string) :
  ascii_text search = true ->
  like_is_exact (trim search) db ->
  (let st' := Dashboard.fetchData (Some db) st search selCategory selSource in
   Dashboard.data st' = Dashboard.filteredData st' /\
   forall item, In item (Dashboard.filteredData st') ->
     exists r,
       item = transform r /\ In r db /\
       (selCategory <> "All" -> selCategory <> "" -> Category item = selCategory) /\
       (selSource <> "All" -> selSource <> "" -> Source item = selSource) /\
       (trim search <> "" -> search_predicate (trim search) r = true)) /\
  (let st' := Dashboard.fetchData None st search selCategory selSource in
   Dashboard.data st' = Dashboard.data st /\
   Dashboard.filteredData st' = Dashboard.filteredData st /\
   Dashboard.isLoading st' = false).
Proof.
  intros _ _.
  split.
  - unfold Dashboard.fetchData.
    set (sp := Dashboard.fetchData_params search selCategory selSource).
    pose proof (GET_available db sp) as Hget. rewrite Hget.
    cbn [Dashboard.data Dashboard.filteredData]. split; [reflexivity|].
    intros item Hin.
    destruct (fetchData_params_get search selCategory selSource) as [Hs [Hc Hso]].
    fold sp in Hs, Hc, Hso.
    assert (Hgc : selCategory <> "All" -> get sp "category" = Some selCategory).
    { intros Hall. rewrite Hc. apply String.eqb_neq in Hall. now rewrite Hall. }
    assert (Hgs : selSource <> "All" -> get sp "source" = Some selSource).
    { intros Hall. rewrite Hso. apply String.eqb_neq in Hall. now rewrite Hall. }
    destruct (string_dec (trim search) "") as [Eb|Eb].
    + assert (Hns : no_search sp) by (apply fetchData_params_no_search; exact Eb).
      destruct (filters_hold_without_search db sp _ item Hns Hget Hin) as [H1 [H2 _]].
      apply in_map_iff in Hin. destruct Hin as [r [Hr Hin]].
      apply all_In in Hin. destruct Hin as [Hdb _].
      exists r. split; [now symmetry|]. split; [exact Hdb|].
      split; [|split].
      * intros Hall Hne. apply H1; auto.
      * intros Hall Hne. apply H2; auto.
      * intros Hne. contradiction.
    + assert (Hns : ~ no_search sp).
      { intros H. apply fetchData_params_no_search in H. contradiction. }
      destruct (search_and_two_filters_hold db sp _ item Hns Hget Hin)
        as [r [Hr [Hdb [Hq [H1 H2]]]]].
      exists r. subst item. cbn [transform Category Source].
      split; [reflexivity|]. split; [exact Hdb|].
      split; [|split].
      * intros Hall Hne. apply H1; auto.
      * intros Hall Hne. apply H2; auto.
      * intros _. rewrite Hs in Hq.
        destruct (trim search) as [|c t] eqn:E; [contradiction|exact Hq].
  - unfold Dashboard.fetchData. rewrite GET_unavailable. repeat split.
Qed.

Lemma padded_fashion_is_exact : like_is_exact (trim " fashion ") sample.
Proof.
  unfold like_is_exact. split; [simpl; lia|].
  split; [reflexivity|]. split; [reflexivity|]. left. reflexivity.
Defined.

Lemma dashboard_shows_selection_witness :
  ascii_text " fashion " = true /\
  like_is_exact (trim " fashion ") sample /\
  (let st' := Dashboard.fetchData (Some sample) Dashboard.initial " fashion " "All" "All" in
   Dashboard.data st' = Dashboard.filteredData st' /\
   forall item, In item (Dashboard.filteredData st') ->
     exists r,
       item = transform r /\ In r sample /\
       ("All" <> "All" -> "All" <> "" -> Category item = "All") /\
       ("All" <> "All" -> "All" <> "" -> Source item = "All") /\
       (trim " fashion " <> "" -> search_predicate (trim " fashion ") r = true)) /\
  (let st' := Dashboard.fetchData None Dashboard.initial " fashion " "All" "All" in
   Dashboard.data st' = Dashboard.data Dashboard.initial /\
   Dashboard.filteredData st' = Dashboard.filteredData Dashboard.initial /\
   Dashboard.isLoading st' = false).
Proof.
  split; [reflexivity|]. split; [exact padded_fashion_is_exact|].
  apply (dashboard_shows_selection sample Dashboard.initial " fashion " "All" "All");
    [reflexivity|exact padded_fashion_is_exact].
Defined.

(** ** Sums over groups *)











(** ** The top-ten lists *)

Lemma StronglySorted_app_cross {A : Type} (R : A -> A -> Prop) (l1 l2 : list A) :
  StronglySorted R (l1 ++ l2) ->
  forall a b, In a l1 -> In b l2 -> R a b.
Proof.
  induction l1 as [|x l1 IH]; intros H a b Ha Hb; [contradiction|].
  simpl in H. inversion H as [|? ? Hs Hall]; subst.
  destruct Ha as [->|Ha].
  - rewrite Forall_forall in Hall. apply Hall. apply in_or_app. now right.
  - now apply IH.
Qed.

Lemma top_n_of_sort {A : Type} (leb : A -> A -> bool) (n : nat) (l : list A) :
  (forall x y, leb x y = true \/ leb y x = true) ->
  (forall x y z, leb x y = true -> leb y z = true -> leb x z = true) ->
  let top := firstn n (sort leb l) in
  List.length top = Nat.min n (List.length l) /\
  StronglySorted (fun a b => leb a b = true) top /\
  exists rest,
    Permutation l (top ++ rest) /\
    forall a b, In a top -> In b rest -> leb a b = true.
Proof.
  intros Htot Htrans top. unfold top.
  pose proof (sort_sorted leb Htot Htrans l) as Hs.
  split; [now rewrite length_firstn, sort_length|].
  split; [now apply StronglySorted_firstn|].
  exists (skipn n (sort leb l)). split.
  - rewrite firstn_skipn. apply sort_perm.
  - apply StronglySorted_app_cross. now rewrite firstn_skipn.
Qed.

Lemma by_time_spent_desc_iff (a b : DashboardItem) :
  Dashboard.by_time_spent_desc a b = true <->
  (Time_Spent_Minutes b <= Time_Spent_Minutes a)%Q.
Proof. apply Qle_bool_iff. Qed.

(** X10: the two top-ten lists.  [topContent] holds the at most ten
    records shown that have the greatest time spent, in descending order
    of time spent, and [topUpvoted] the at most ten with the most
    upvotes, in descending order of upvotes; no record left out has more
    than a record listed. *)
Theorem top_ten_lists (st : Dashboard.State) :
  top_ten_by Qle Time_Spent_Minutes (Dashboard.filteredData st) (Dashboard.topContent st) /\
  top_ten_by Z.le Upvotes (Dashboard.filteredData st) (Dashboard.topUpvoted st).
Proof.
  split.
  - destruct (top_n_of_sort Dashboard.by_time_spent_desc 10 (Dashboard.filteredData st))
      as [Hlen [Hs [rest [Hp Hd]]]].
    + intros x y. rewrite !by_time_spent_desc_iff.
      destruct (Qlt_le_dec (Time_Spent_Minutes x) (Time_Spent_Minutes y)) as [H|H];
        [right; lra|left; exact H].
    + intros x y z. rewrite !by_time_spent_desc_iff. lra.
    + unfold top_ten_by, Dashboard.topContent. split; [exact Hlen|]. split.
      * eapply StronglySorted_map with (f := fun x => x) in Hs.
        -- rewrite map_id in Hs. exact Hs.
        -- intros x y. apply by_time_spent_desc_iff.
      * exists rest. split; [exact Hp|].
        intros a b Ha Hb. apply by_time_spent_desc_iff. now apply Hd.
  - destruct (top_n_of_sort Dashboard.by_upvotes_desc 10 (Dashboard.filteredData st))
      as [Hlen [Hs [rest [Hp Hd]]]].
    + intros x y. unfold Dashboard.by_upvotes_desc. lia.
    + intros x y z. unfold Dashboard.by_upvotes_desc. lia.
    + unfold top_ten_by, Dashboard.topUpvoted. split; [exact Hlen|]. split.
      * eapply StronglySorted_map with (f := fun x => x) in Hs.
        -- rewrite map_id in Hs. exact Hs.
        -- intros x y. unfold Dashboard.by_upvotes_desc. lia.
      * exists rest. split; [exact Hp|].
        intros a b Ha Hb. specialize (Hd a b Ha Hb).
        unfold Dashboard.by_upvotes_desc in Hd. lia.
Qed.

(** ** The headline metrics and the statistics route *)



(** * The request guards *)

(** ** The rate limit per address *)

Lemma set_same (key : string) (value : Security.Limit) (m : Security.LimitMap) :
  Security.set key value m key = Some value.
Proof. unfold Security.set. now rewrite String.eqb_refl. Qed.

Lemma set_other (key other : string) (value : Security.Limit) (m : Security.LimitMap) :
  other <> key -> Security.set key value m other = m other.
Proof.
  intros H. unfold Security.set. apply String.eqb_neq in H. now rewrite H.
Qed.

(** Inside a window: while no call comes after the reset time of the
    entry of [ip], at most [100 - count] further calls of [ip] pass. *)
Lemma rate_limit_in_window (ip : string) (calls : list (Z * string)) :
  forall (m : Security.LimitMap) (c R : Z),
    m ip = Some (Security.mkLimit c R) ->
    (forall call, In call calls -> fst call <= R) ->
    (Z.of_nat (Security.passed_calls Security.checkRateLimit ip calls m) <= Z.max 0 (100 - c)).
Proof.
  induction calls as [|[now who] calls IH]; intros m c R Hm Hw; [simpl; lia|].
  assert (Hnow : now <= R) by (apply (Hw (now, who)); now left).
  assert (Hrest : forall call, In call calls -> fst call <= R)
    by (intros call Hc; apply Hw; now right).
  cbn [Security.passed_calls].
  destruct (String.eqb who ip) eqn:Ewho.
  - apply String.eqb_eq in Ewho. subst who.
    assert (E : (now >? R) = false) by lia.
    assert (Eg : Security.checkRateLimit now ip m =
                 if c >=? 100 then (false, m)
                 else (true, Security.set ip (Security.mkLimit (c + 1) R) m)).
    { unfold Security.checkRateLimit. rewrite Hm.
      cbn [Security.resetTime Security.count]. now rewrite E. }
    rewrite Eg.
    destruct (c >=? 100) eqn:Ec; cbv beta iota zeta; cbn [andb].
    + specialize (IH m c R Hm Hrest). lia.
    + specialize (IH (Security.set ip (Security.mkLimit (c + 1) R) m) (c + 1) R
                     (set_same _ _ _) Hrest).
      lia.
  - assert (Hne : ip <> who).
    { intros ->. rewrite String.eqb_refl in Ewho. discriminate. }
    destruct (Security.checkRateLimit now who m) as [answer m'] eqn:Eg.
    assert (Hm' : m' ip = Some (Security.mkLimit c R)).
    { unfold Security.checkRateLimit in Eg.
      destruct (m who) as [limit|];
        [destruct (now >? Security.resetTime limit);
         [|destruct (Security.count limit >=? 100)]|];
        injection Eg as _ <-; rewrite ?set_other by exact Hne; exact Hm. }
    cbv beta iota zeta. rewrite andb_false_r. specialize (IH m' c R Hm' Hrest). lia.
Qed.

(** X12: the rate limit per address.  From a call of [ip] that starts a
    window (the address is unknown, or its reset time has passed) until
    3600000 ms later, at most 100 calls of that address pass, however the
    calls of other addresses are interleaved. *)
Theorem rate_limit_bound (m : Security.LimitMap) (ip : string) (t0 : Z)
        (calls : list (Z * string)) :
  match m ip with
  | Some limit => t0 > Security.resetTime limit
  | None => True
  end ->
  (forall call, In call calls -> fst call <= t0 + 3600000) ->
  (Security.passed_calls Security.checkRateLimit ip ((t0, ip) :: calls) m <= 100)%nat.
Proof.
  intros Hstart Hw. cbn [Security.passed_calls].
  assert (Hfirst : Security.checkRateLimit t0 ip m =
                   (true, Security.set ip (Security.mkLimit 1 (t0 + 3600000)) m)).
  { unfold Security.checkRateLimit. destruct (m ip) as [limit|]; [|reflexivity].
    assert (E : (t0 >? Security.resetTime limit) = true) by lia. now rewrite E. }
  rewrite Hfirst, String.eqb_refl. cbv beta iota zeta. cbn [andb].
  pose proof (rate_limit_in_window ip calls
                (Security.set ip (Security.mkLimit 1 (t0 + 3600000)) m)
                1 (t0 + 3600000) (set_same _ _ _) Hw).
  lia.
Qed.

Lemma rate_limit_bound_witness :
  match Security.new_Map "10.0.0.1" with
  | Some limit => 5 > Security.resetTime limit
  | None => True
  end /\
  (forall call, In call two_calls -> fst call <= 5 + 3600000) /\
  (Security.passed_calls Security.checkRateLimit "10.0.0.1"
     ((5%Z, "10.0.0.1") :: two_calls) Security.new_Map <= 100)%nat.
Proof.
  assert (Hw : forall call, In call two_calls -> fst call <= 5 + 3600000).
  { intros call [<-|[<-|[]]]; simpl; lia. }
  split; [exact I|]. split; [exact Hw|].
  apply (rate_limit_bound Security.new_Map "10.0.0.1" 5 two_calls); [exact I|exact Hw].
Defined.

(** ** The rate limit per API key *)

(** X13: the rate limit per API key never refuses.  Starting from the
    empty map, every call of every run of [checkAPIKeyLimit] is answered
    with [true]: an entry is created with the count 1 and never counted
    up, so the bound of 1000 is never reached. *)
Theorem api_key_limit_never_refuses (calls : list (Z * string)) :
  Forall (fun answer => answer = true)
         (fst (Security.serve Security.checkAPIKeyLimit calls Security.new_Map)).
Proof.
  assert (Hinv : forall m : Security.LimitMap,
             (forall k limit, m k = Some limit -> Security.count limit = 1) ->
             Forall (fun answer => answer = true)
                    (fst (Security.serve Security.checkAPIKeyLimit calls m))).
  { induction calls as [|[now key] calls IH]; intros m Hm; [constructor|].
    cbn [Security.serve].
    destruct (Security.checkAPIKeyLimit now key m) as [answer m'] eqn:Eg.
    specialize (IH m').
    destruct (Security.serve Security.checkAPIKeyLimit calls m') as [answers m''].
    cbn [fst] in *.
    assert (Hfresh : forall k limit,
               Security.set key (Security.mkLimit 1 (now + 3600000)) m k = Some limit ->
               Security.count limit = 1).
    { intros k limit. unfold Security.set.
      destruct (String.eqb k key); [intros [= <-]; reflexivity|apply Hm]. }
    unfold Security.checkAPIKeyLimit in Eg.
    destruct (m key) as [limit|] eqn:Ek.
    - destruct (now >? Security.resetTime limit).
      + injection Eg as <- <-. constructor; [reflexivity|now apply IH].
      + injection Eg as <- <-. rewrite (Hm key limit Ek).
        constructor; [reflexivity|now apply IH].
    - injection Eg as <- <-. constructor; [reflexivity|now apply IH]. }
  apply Hinv. intros k limit H. discriminate H.
Qed.

(** ** Splitting at a separator *)

Lemma includes_In (l : list string) (x : string) : includes l x = true <-> In x l.
Proof.
  unfold includes. rewrite existsb_exists. split.
  - intros [y [Hy E]]. apply String.eqb_eq in E. now subst y.
  - intros H. exists x. split; [exact H|apply String.eqb_refl].
Qed.

Lemma split_on_cons (sep : ascii) (s : string) :
  exists piece rest, split_on sep s = piece :: rest.
Proof.
  induction s as [|c s [piece [rest IH]]]; simpl.
  - now exists EmptyString, [].
  - destruct (Ascii.eqb c sep).
    + now exists EmptyString, (split_on sep s).
    + rewrite IH. now exists (String c piece), rest.
Qed.

(** No piece holds the separator. *)
Lemma split_on_no_sep (sep : ascii) (s piece : string) :
  In piece (split_on sep s) -> has_char sep piece = false.
Proof.
  revert piece. induction s as [|c s IH]; intros piece; simpl.
  - intros [<-|[]]. reflexivity.
  - destruct (Ascii.eqb c sep) eqn:Ec.
    + intros [<-|H]; [reflexivity|now apply IH].
    + destruct (split_on_cons sep s) as [p [rest E]]. rewrite E in *.
      intros [<-|H].
      * simpl. rewrite Ec. apply IH. now left.
      * apply IH. now right.
Qed.

Lemma split_on_piece (sep : ascii) (k : string) :
  has_char sep k = false -> split_on sep k = [k].
Proof.
  induction k as [|c k IH]; simpl; [reflexivity|].
  intros H. apply orb_false_elim in H. destruct H as [Hc Hk].
  rewrite Hc, (IH Hk). reflexivity.
Qed.

Lemma split_on_app (sep : ascii) (k t : string) :
  has_char sep k = false ->
  split_on sep (k ++ String sep t) = k :: split_on sep t.
Proof.
  induction k as [|c k IH]; simpl.
  - intros _. now rewrite Ascii.eqb_refl.
  - intros H. apply orb_false_elim in H. destruct H as [Hc Hk].
    rewrite Hc, (IH Hk). reflexivity.
Qed.

(** Splitting undoes joining, for pieces without the separator. *)
Lemma split_on_concat (sep : ascii) (pieces : list string) :
  pieces <> [] ->
  Forall (fun p => has_char sep p = false) pieces ->
  split_on sep (String.concat (String sep EmptyString) pieces) = pieces.
Proof.
  induction pieces as [|p pieces IH]; intros Hne Hall; [contradiction|].
  inversion Hall as [|? ? Hp Hrest]; subst.
  destruct pieces as [|q pieces].
  - simpl. now apply split_on_piece.
  - change (String.concat (String sep "") (p :: q :: pieces))
      with (p ++ String sep (String.concat (String sep "") (q :: pieces)))%string.
    rewrite split_on_app by exact Hp.
    rewrite IH; [reflexivity|discriminate|exact Hrest].
Qed.

(** X14: [validateAPIKey].  Without API_KEYS no key is valid; a key
    that holds a comma is never valid; and when API_KEYS is a list of
    keys without commas, joined by commas, exactly the keys of the list
    are valid. *)
Theorem validateAPIKey_keys :
  (forall apiKey, Security.validateAPIKey None apiKey = false) /\
  (forall API_KEYS apiKey,
     Security.validateAPIKey API_KEYS apiKey = true -> has_char "," apiKey = false) /\
  (forall keys apiKey,
     keys <> [] ->
     Forall (fun key => has_char "," key = false) keys ->
     (Security.validateAPIKey (Some (String.concat "," keys)) apiKey = true <->
      In apiKey keys)).
Proof.
  split; [reflexivity|]. split.
  - intros [env|] apiKey H; [|discriminate H].
    unfold Security.validateAPIKey in H. apply includes_In in H.
    now apply split_on_no_sep in H.
  - intros keys apiKey Hne Hall. unfold Security.validateAPIKey.
    rewrite (split_on_concat "," keys Hne Hall). apply includes_In.
Qed.

(** * The connection *)

Lemma calls_when_open (attempts : list Connection.Attempt) (s : Connection.Module_state)
      (db : Connection.Database) :
  Connection.dbInstance s = Some db ->
  Connection.calls attempts s = (repeat (Ok db) (List.length attempts), s).
Proof.
  intros H. induction attempts as [|a attempts IH]; [reflexivity|].
  cbn [Connection.calls]. unfold Connection.getDatabase. rewrite H, IH. reflexivity.
Qed.

(** X15: the connection is opened once and reused.  In a run of
    [getDatabase] calls without [closeDatabase], [new Database] succeeds
    at most once, all calls that return a connection return the same
    one, and once [dbInstance] is set every call returns it and leaves
    the state as it is.  That holds for a connection whose pragmas
    failed as well: the call in which a pragma throws still sets
    [dbInstance], and the calls after it return that connection with
    only the pragmas applied before the failure. *)
Theorem connection_is_reused (attempts : list Connection.Attempt)
        (s : Connection.Module_state) :
  (Connection.opened (snd (Connection.calls attempts s)) <= S (Connection.opened s))%nat /\
  (forall db db',
     In (Ok db) (fst (Connection.calls attempts s)) ->
     In (Ok db') (fst (Connection.calls attempts s)) -> db = db') /\
  (forall db,
     Connection.dbInstance s = Some db ->
     Connection.calls attempts s = (repeat (Ok db) (List.length attempts), s)) /\
  (forall applied,
     Connection.dbInstance s = None ->
     fst (Connection.calls (Connection.pragma_fails applied :: attempts) s) =
     Throw "Database connection failed" ::
     repeat (Ok (Connection.mkDatabase (Connection.opened s) applied))
            (List.length attempts)).
Proof.
  assert (Hrep : forall (db : Connection.Database) n x,
             In x (repeat (Ok db) n) -> x = Ok db)
    by (intros db n x; apply repeat_spec).
  split; [|split; [|split]].
  - revert s. induction attempts as [|a attempts IH]; intros s; [simpl; lia|].
    destruct (Connection.dbInstance s) as [db|] eqn:E.
    + rewrite (calls_when_open _ _ _ E). simpl. lia.
    + cbn [Connection.calls]. unfold Connection.getDatabase. rewrite E.
      destruct a.
      * specialize (IH s). destruct (Connection.calls attempts s). exact IH.
      * erewrite calls_when_open by reflexivity. simpl. lia.
      * erewrite calls_when_open by reflexivity. simpl. lia.
  - revert s. induction attempts as [|a attempts IH]; intros s db db'; [intros []|].
    destruct (Connection.dbInstance s) as [db0|] eqn:E.
    + rewrite (calls_when_open _ _ _ E). cbn [fst]. intros H1 H2.
      apply Hrep in H1, H2. congruence.
    + cbn [Connection.calls]. unfold Connection.getDatabase. rewrite E.
      destruct a.
      * specialize (IH s db db'). destruct (Connection.calls attempts s).
        cbn [fst] in *. intros [H1|H1] [H2|H2]; try discriminate. now apply IH.
      * erewrite calls_when_open by reflexivity. cbn [fst].
        intros [H1|H1] [H2|H2]; try discriminate.
        apply Hrep in H1, H2. congruence.
      * erewrite calls_when_open by reflexivity. cbn [fst].
        intros [H1|H1] [H2|H2];
          try apply Hrep in H1; try apply Hrep in H2; congruence.
  - intros db E. now apply calls_when_open.
  - intros applied E. cbn [Connection.calls]. unfold Connection.getDatabase. rewrite E.
    erewrite calls_when_open by reflexivity. reflexivity.
Qed.

(** X16: no connection is leaked.  After any sequence of [getDatabase]
    and [closeDatabase] calls on the freshly loaded module, every
    connection that was opened has been closed, except the one that
    [dbInstance] holds, if it holds one. *)
Theorem connection_never_leaks (ops : list Connection.Op) :
  let s := Connection.run ops Connection.loaded in
  Connection.opened s =
  (Connection.closed s +
   match Connection.dbInstance s with Some _ => 1 | None => 0 end)%nat.
Proof.
  cbv zeta.
  assert (Hinv : forall s,
             Connection.opened s =
             (Connection.closed s +
              match Connection.dbInstance s with Some _ => 1 | None => 0 end)%nat ->
             Connection.opened (Connection.run ops s) =
             (Connection.closed (Connection.run ops s) +
              match Connection.dbInstance (Connection.run ops s) with
              | Some _ => 1 | None => 0 end)%nat).
  { induction ops as [|op ops IH]; intros s Hs; [exact Hs|].
    unfold Connection.run in *. cbn [fold_left]. apply IH.
    destruct op as [[|applied|]|]; cbn [Connection.step];
      unfold Connection.getDatabase, Connection.closeDatabase;
      destruct (Connection.dbInstance s) eqn:E; cbn; rewrite ?E; cbn; lia. }
  apply Hinv. reflexivity.
Qed.

(** * Slugs *)

Lemma replace_runs_dashed (in_run : bool) (s : string) :
  dashed_from in_run (Preview.replace_runs in_run s) = true.
Proof.
  revert in_run. induction s as [|c s IH]; intros in_run; [reflexivity|].
  cbn [Preview.replace_runs].
  destruct (Preview.is_slug_alnum c) eqn:Ec.
  - cbn [dashed_from]. rewrite Ec. apply IH.
  - destruct in_run; [apply IH|].
    cbn [dashed_from].
    change (Preview.is_slug_alnum "-") with false. cbv iota.
    rewrite Ascii.eqb_refl. cbn [andb negb]. apply IH.
Qed.

Lemma strip_last_dash_slug (after_dash : bool) (s : string) :
  dashed_from after_dash s = true ->
  Preview.strip_last_dash s = EmptyString \/
  slug_from after_dash (Preview.strip_last_dash s) = true.
Proof.
  revert after_dash. induction s as [|c s IH]; intros after_dash H; [now left|].
  cbn [dashed_from] in H.
  destruct s as [|d s].
  - cbn [Preview.strip_last_dash].
    destruct (Ascii.eqb c "-") eqn:Ec; [now left|right].
    destruct (Preview.is_slug_alnum c) eqn:Ea; [|discriminate H].
    cbn [slug_from]. now rewrite Ea.
  - change (Preview.strip_last_dash (String c (String d s)))
      with (String c (Preview.strip_last_dash (String d s))).
    right. cbn [slug_from].
    destruct (Preview.is_slug_alnum c) eqn:Ea.
    + destruct (IH false H) as [E|E]; [rewrite E; reflexivity|exact E].
    + apply andb_true_iff in H. destruct H as [H Hd].
      rewrite H. cbn [andb].
      destruct (IH true Hd) as [E|E]; [|exact E].
      exfalso. cbn [dashed_from] in Hd.
      destruct (Preview.is_slug_alnum d) eqn:Ed.
      * assert (Hdash : Ascii.eqb d "-" = false).
        { destruct (Ascii.eqb d "-") eqn:E'; [|reflexivity].
          apply Ascii.eqb_eq in E'. subst d. discriminate Ed. }
        destruct s; cbn [Preview.strip_last_dash] in E;
          [rewrite Hdash in E|]; discriminate E.
      * rewrite andb_false_r in Hd. discriminate Hd.
Qed.

Lemma strip_dashes_slug (s : string) :
  dashed_from false s = true ->
  Preview.strip_dashes s = EmptyString \/ is_slug (Preview.strip_dashes s) = true.
Proof.
  intros H. unfold Preview.strip_dashes, is_slug.
  apply strip_last_dash_slug.
  destruct s as [|c s]; [reflexivity|].
  cbn [dashed_from] in H.
  destruct (Ascii.eqb c "-") eqn:Ec.
  - apply Ascii.eqb_eq in Ec. subst c.
    change (Preview.is_slug_alnum "-") with false in H.
    now apply andb_true_iff in H.
  - cbn [dashed_from].
    destruct (Preview.is_slug_alnum c); [exact H|discriminate H].
Qed.

Lemma slug_alnum_lower (c : ascii) : Preview.is_slug_alnum c = true -> to_lower c = c.
Proof.
  unfold Preview.is_slug_alnum, to_lower. intros H.
  destruct ((65 <=? code c) && (code c <=? 90)) eqn:E; [|reflexivity].
  lia.
Qed.

Lemma slug_fixed (after_dash : bool) (s : string) :
  slug_from after_dash s = true ->
  lower s = s /\
  Preview.replace_runs after_dash s = s /\
  Preview.strip_last_dash s = s.
Proof.
  revert after_dash. induction s as [|c s IH]; intros after_dash H; [repeat split|].
  cbn [slug_from] in H. cbn [lower Preview.replace_runs].
  destruct (Preview.is_slug_alnum c) eqn:Ea.
  - destruct (IH false H) as [H1 [H2 H3]].
    rewrite (slug_alnum_lower c Ea), H1, H2.
    repeat split.
    destruct s as [|d s]; [|cbn [Preview.strip_last_dash] in *; now rewrite H3].
    cbn [Preview.strip_last_dash].
    destruct (Ascii.eqb c "-") eqn:Ec; [|reflexivity].
    apply Ascii.eqb_eq in Ec. subst c. discriminate Ea.
  - apply andb_true_iff in H. destruct H as [H Hs].
    apply andb_true_iff in H. destruct H as [Hc Hp].
    apply Ascii.eqb_eq in Hc. subst c.
    destruct after_dash; [discriminate Hp|].
    destruct (IH true Hs) as [H1 [H2 H3]].
    change (to_lower "-") with "-"%char.
    change (Preview.is_slug_alnum "-") with false.
    cbn iota. rewrite H1, H2. repeat split.
    destruct s as [|d s]; [discriminate Hs|].
    cbn [Preview.strip_last_dash] in *. now rewrite H3.
Qed.

Lemma slug_chars (after_dash : bool) (s : string) (c : ascii) :
  slug_from after_dash s = true ->
  Preview.is_slug_alnum c = false -> c <> "-"%char ->
  has_char c s = false.
Proof.
  intros H Hc Hd. revert after_dash H.
  induction s as [|d s IH]; intros after_dash H; [reflexivity|].
  cbn [slug_from] in H. cbn [has_char].
  destruct (Preview.is_slug_alnum d) eqn:Ed.
  - rewrite (IH false H), orb_false_r.
    apply Ascii.eqb_neq. intros ->. congruence.
  - apply andb_true_iff in H. destruct H as [H Hs].
    apply andb_true_iff in H. destruct H as [Hdash _].
    apply Ascii.eqb_eq in Hdash. subst d.
    rewrite (IH true Hs), orb_false_r.
    apply Ascii.eqb_neq. congruence.
Qed.

(** X17: [slugify] yields slugs.  With a fallback that is a slug (as the
    default "preview"), the result for any value is a slug: not empty,
    made of [a-z0-9] and single dashes, with no dash at either end; so it
    holds no slash, backslash or dot.  Applying [slugify] to the result
    gives the result again. *)
Theorem slugify_is_slug (value : option string) (fallback : string) :
  is_slug fallback = true ->
  let slug := Preview.slugify value fallback in
  is_slug slug = true /\
  has_char "/" slug = false /\
  has_char "\" slug = false /\
  has_char "." slug = false /\
  Preview.slugify (Some slug) fallback = slug.
Proof.
  intros Hf slug.
  assert (Hslug : is_slug slug = true).
  { unfold slug, Preview.slugify.
    set (base := match value with
                 | Some v => if truthy_string v then v else fallback
                 | None => fallback
                 end).
    destruct (strip_dashes_slug (Preview.replace_runs false (lower base))
                (replace_runs_dashed false (lower base))) as [E|E].
    - rewrite E. exact Hf.
    - destruct (Preview.strip_dashes (Preview.replace_runs false (lower base)));
        [discriminate E|exact E]. }
  split; [exact Hslug|].
  split; [apply (slug_chars true); [exact Hslug|reflexivity|discriminate]|].
  split; [apply (slug_chars true); [exact Hslug|reflexivity|discriminate]|].
  split; [apply (slug_chars true); [exact Hslug|reflexivity|discriminate]|].
  unfold is_slug in Hslug.
  destruct (slug_fixed true slug Hslug) as [H1 [H2 H3]].
  destruct slug as [|c t] eqn:Es; [discriminate Hslug|].
  unfold Preview.slugify. cbn [truthy_string]. rewrite H1.
  assert (Ha : Preview.is_slug_alnum c = true).
  { cbn [slug_from] in Hslug. destruct (Preview.is_slug_alnum c); [reflexivity|].
    rewrite andb_false_r in Hslug. discriminate Hslug. }
  assert (Hr : Preview.replace_runs false (String c t) = String c t).
  { cbn [Preview.replace_runs] in *. rewrite Ha in *. exact H2. }
  rewrite Hr. unfold Preview.strip_dashes.
  assert (Hd : Ascii.eqb c "-" = false).
  { apply Ascii.eqb_neq. intros ->. discriminate Ha. }
  rewrite Hd, H3. reflexivity.
Qed.

Lemma slugify_is_slug_witness :
  is_slug "preview" = true /\
  is_slug (Preview.slugify sample_reference "preview") = true /\
  has_char "/" (Preview.slugify sample_reference "preview") = false /\
  has_char "\" (Preview.slugify sample_reference "preview") = false /\
  has_char "." (Preview.slugify sample_reference "preview") = false /\
  Preview.slugify (Some (Preview.slugify sample_reference "preview")) "preview" =
  Preview.slugify sample_reference "preview".
Proof.
  split; [reflexivity|].
  apply (slugify_is_slug sample_reference "preview"). reflexivity.
Defined.

(** * CSV lines *)

Lemma split_on_length (sep : ascii) (s : string) :
  List.length (split_on sep s) = S (count_char sep s).
Proof.
  induction s as [|c s IH]; [reflexivity|].
  cbn [split_on count_char].
  destruct (Ascii.eqb c sep).
  - cbn [List.length]. now rewrite IH.
  - destruct (split_on_cons sep s) as [p [rest E]]. rewrite E in *.
    cbn [List.length] in *. lia.
Qed.

Lemma count_char_app (c : ascii) (a b : string) :
  count_char c (a ++ b) = (count_char c a + count_char c b)%nat.
Proof.
  induction a as [|d a IH]; [reflexivity|].
  cbn [append count_char]. rewrite IH. lia.
Qed.

Lemma count_char_has (c : ascii) (s : string) :
  has_char c s = false -> count_char c s = 0%nat.
Proof.
  induction s as [|d s IH]; [reflexivity|].
  cbn [has_char count_char]. intros H.
  apply orb_false_elim in H. destruct H as [Hd Hs].
  rewrite Hd, (IH Hs). reflexivity.
Qed.

Lemma count_comma_double_quotes (str : string) :
  count_char "," (Preview.double_quotes str) = count_char "," str.
Proof.
  induction str as [|c str IH]; [reflexivity|].
  cbn [Preview.double_quotes].
  destruct (Ascii.eqb c Preview.quote) eqn:Ec.
  - apply Ascii.eqb_eq in Ec. subst c. cbn [count_char]. rewrite IH. reflexivity.
  - cbn [count_char]. now rewrite IH.
Qed.

Lemma count_comma_csv_cell (str : string) :
  count_char "," (Preview.csv_cell (Some str)) = count_char "," str.
Proof.
  unfold Preview.csv_cell. destruct (Preview.needs_quotes str); [|reflexivity].
  cbn [count_char]. rewrite count_char_app, count_comma_double_quotes.
  cbn [count_char Ascii.eqb]. unfold Preview.quote. cbn. lia.
Qed.

Lemma count_comma_concat (cells : list string) :
  cells <> [] ->
  S (count_char "," (String.concat "," cells)) =
  (List.length cells + list_sum (map (count_char ",") cells))%nat.
Proof.
  induction cells as [|p cells IH]; intros Hne; [contradiction|].
  destruct cells as [|q cells].
  - cbn. lia.
  - change (String.concat "," (p :: q :: cells))
      with (p ++ String "," (String.concat "," (q :: cells)))%string.
    rewrite count_char_app. cbn [count_char].
    change (Ascii.eqb "," ",") with true. cbv iota.
    specialize (IH ltac:(discriminate)).
    cbn [List.length map list_sum fold_right] in *. lia.
Qed.

(** X18: a line of [toCSVLine], split at its commas as [parseCSV] splits
    every line.  For cells none of which holds a quote, a comma or a
    line feed the split gives the cells back; in general it gives as
    many pieces as there are cells and commas inside cells together, so
    a cell with a comma comes back in more than one piece although
    [toCSVLine] puts it in quotes. *)
Theorem csv_line_split (cells : list string) :
  cells <> [] ->
  List.length (split_on "," (Preview.toCSVLine (map Some cells))) =
    (List.length cells + list_sum (map (count_char ",") cells))%nat /\
  (Forall (fun cell => Preview.needs_quotes cell = false) cells ->
   split_on "," (Preview.toCSVLine (map Some cells)) = cells).
Proof.
  intros Hne. unfold Preview.toCSVLine. rewrite map_map. split.
  - rewrite split_on_length, count_comma_concat.
    + rewrite length_map, map_map. do 2 f_equal.
      apply map_ext. intros cell. apply count_comma_csv_cell.
    + destruct cells; [contradiction|discriminate].
  - intros Hplain.
    assert (E : map (fun cell => Preview.csv_cell (Some cell)) cells = cells).
    { clear Hne. induction Hplain as [|cell cells Hc Hall IH]; [reflexivity|].
      cbn [map]. rewrite IH. unfold Preview.csv_cell. now rewrite Hc. }
    rewrite E. apply split_on_concat; [exact Hne|].
    eapply Forall_impl; [|exact Hplain].
    intros cell H. unfold Preview.needs_quotes in H.
    apply orb_false_elim in H. destruct H as [H _].
    apply orb_false_elim in H. now destruct H as [_ H].
Qed.

Lemma csv_line_split_witness :
  ["Style Principles"; "https://substack.com/p/3"; "Substack"] <> [] /\
  List.length
    (split_on ","
       (Preview.toCSVLine
          (map Some ["Style Principles"; "https://substack.com/p/3"; "Substack"]))) =
    (List.length ["Style Principles"; "https://substack.com/p/3"; "Substack"] +
     list_sum (map (count_char ",")
                 ["Style Principles"; "https://substack.com/p/3"; "Substack"]))%nat /\
  (Forall (fun cell => Preview.needs_quotes cell = false)
     ["Style Principles"; "https://substack.com/p/3"; "Substack"] ->
   split_on ","
     (Preview.toCSVLine
        (map Some ["Style Principles"; "https://substack.com/p/3"; "Substack"])) =
   ["Style Principles"; "https://substack.com/p/3"; "Substack"]).
Proof.
  split; [discriminate|].
  apply (csv_line_split ["Style Principles"; "https://substack.com/p/3"; "Substack"]).
  discriminate.
Defined.

(** * The engagement score *)

Lemma min_spec (a b : Q) :
  (Scores.min a b <= a)%Q /\ (Scores.min a b <= b)%Q /\
  (Scores.min a b == a \/ Scores.min a b == b)%Q.
Proof.
  unfold Scores.min. destruct (Qle_bool a b) eqn:E.
  - apply Qle_bool_iff in E. split; [lra|]. split; [lra|]. left. reflexivity.
  - assert (H : ~ (a <= b)%Q) by (intros H; apply Qle_bool_iff in H; congruence).
    split; [lra|]. split; [lra|]. right. reflexivity.
Qed.

Lemma div_100_le (a b : Q) : (a <= b)%Q -> (a / 100 <= b / 100)%Q.
Proof.
  intros H. unfold Qdiv. apply Qmult_le_compat_r; [exact H|].
  unfold Qle. simpl. lia.
Qed.

Lemma round_half_even_bounds (x : Q) (lo hi : Z) :
  (inject_Z lo <= x)%Q -> (x <= inject_Z hi)%Q ->
  lo <= Scores.round_half_even x <= hi.
Proof.
  intros Hlo Hhi. unfold Scores.round_half_even.
  pose proof (Qfloor_le x) as Hfl.
  pose proof (Qlt_floor x) as Hlt.
  rewrite inject_Z_plus in Hlt. change (inject_Z 1) with 1%Q in Hlt.
  assert (Hf1 : lo <= Qfloor x).
  { apply Z.lt_succ_r. rewrite Zlt_Qlt. unfold Z.succ. rewrite inject_Z_plus.
    change (inject_Z 1) with 1%Q. lra. }
  assert (Hf2 : Qfloor x <= hi) by (rewrite Zle_Qle; lra).
  assert (Hup : (0 < x - inject_Z (Qfloor x))%Q -> Qfloor x + 1 <= hi).
  { intros Hd. apply Z.lt_succ_r. unfold Z.succ.
    apply Z.add_lt_mono_r. rewrite Zlt_Qlt. lra. }
  destruct (x - inject_Z (Qfloor x) ?= 1 # 2)%Q eqn:E.
  - apply Qeq_alt in E. destruct (Z.even (Qfloor x)); [lia|].
    assert (Qfloor x + 1 <= hi) by (apply Hup; lra). lia.
  - lia.
  - apply Qgt_alt in E. assert (Qfloor x + 1 <= hi) by (apply Hup; lra). lia.
Qed.

(** X19: the engagement score lies between 0 and 1 for views, upvotes
    and time spent that are not negative, and it is 1 as soon as views,
    upvotes and time spent reach 5000, 300 and 20. *)
Theorem engagement_score_range (views upvotes : Z) (time_spent : Q) :
  0 <= views -> 0 <= upvotes -> (0 <= time_spent)%Q ->
  (0 <= Scores.calculate_engagement_score views upvotes time_spent <= 1)%Q /\
  (5000 <= views -> 300 <= upvotes -> (20 <= time_spent)%Q ->
   (Scores.calculate_engagement_score views upvotes time_spent == 1)%Q).
Proof.
  intros Hv Hu Ht.
  assert (Hqv : (0 <= inject_Z views / 5000)%Q).
  { apply Qle_shift_div_l; [lra|]. rewrite Qmult_0_l.
    change 0%Q with (inject_Z 0). now rewrite <- Zle_Qle. }
  assert (Hqu : (0 <= inject_Z upvotes / 300)%Q).
  { apply Qle_shift_div_l; [lra|]. rewrite Qmult_0_l.
    change 0%Q with (inject_Z 0). now rewrite <- Zle_Qle. }
  assert (Hqt : (0 <= time_spent / 20)%Q).
  { apply Qle_shift_div_l; lra. }
  unfold Scores.calculate_engagement_score, Scores.round2.
  destruct (min_spec (inject_Z views / 5000) 1) as [V1 [V2 V3]].
  destruct (min_spec (inject_Z upvotes / 300) 1) as [U1 [U2 U3]].
  destruct (min_spec (time_spent / 20) 1) as [T1 [T2 T3]].
  set (nv := Scores.min (inject_Z views / 5000) 1) in *.
  set (nu := Scores.min (inject_Z upvotes / 300) 1) in *.
  set (nt := Scores.min (time_spent / 20) 1) in *.
  assert (V0 : (0 <= nv)%Q) by (destruct V3 as [E|E]; rewrite E; lra).
  assert (U0 : (0 <= nu)%Q) by (destruct U3 as [E|E]; rewrite E; lra).
  assert (T0 : (0 <= nt)%Q) by (destruct T3 as [E|E]; rewrite E; lra).
  set (score := (nv * (4 # 10) + nu * (4 # 10) + nt * (2 # 10))%Q).
  assert (Hs : (0 <= score * 100 <= 100)%Q) by (unfold score; lra).
  assert (Hr : forall lo hi, (inject_Z lo <= score * 100)%Q -> (score * 100 <= inject_Z hi)%Q ->
                             (inject_Z lo / 100 <=
                              inject_Z (Scores.round_half_even (score * 100)) / 100 <=
                              inject_Z hi / 100)%Q).
  { intros lo hi H1 H2.
    destruct (round_half_even_bounds (score * 100) lo hi H1 H2) as [B1 B2].
    rewrite Zle_Qle in B1, B2.
    split; apply div_100_le; assumption. }
  split.
  - destruct (Hr 0 100) as [B1 B2]; [unfold inject_Z; lra|unfold inject_Z; lra|].
    split.
    + apply (Qle_trans _ (inject_Z 0 / 100)); [vm_compute; discriminate|exact B1].
    + apply (Qle_trans _ (inject_Z 100 / 100)); [exact B2|vm_compute; discriminate].
  - intros Hv5 Hu3 Ht20.
    assert (Ev : (nv == 1)%Q).
    { assert (1 <= inject_Z views / 5000)%Q.
      { apply Qle_shift_div_l; [lra|]. rewrite Qmult_1_l.
        change 5000%Q with (inject_Z 5000). now rewrite <- Zle_Qle. }
      destruct V3 as [E|E]; lra. }
    assert (Eu : (nu == 1)%Q).
    { assert (1 <= inject_Z upvotes / 300)%Q.
      { apply Qle_shift_div_l; [lra|]. rewrite Qmult_1_l.
        change 300%Q with (inject_Z 300). now rewrite <- Zle_Qle. }
      destruct U3 as [E|E]; lra. }
    assert (Et : (nt == 1)%Q).
    { assert (1 <= time_spent / 20)%Q by (apply Qle_shift_div_l; lra).
      destruct T3 as [E|E]; lra. }
    assert (E100 : (score * 100 == 100)%Q) by (unfold score; lra).
    destruct (Hr 100 100) as [B1 B2]; [unfold inject_Z; lra|unfold inject_Z; lra|].
    apply Qle_antisym.
    + apply (Qle_trans _ (inject_Z 100 / 100)); [exact B2|vm_compute; discriminate].
    + apply (Qle_trans _ (inject_Z 100 / 100)); [vm_compute; discriminate|exact B1].
Qed.

Lemma engagement_score_range_witness :
  0 <= 2500 /\ 0 <= 150 /\ (0 <= 10)%Q /\
  (0 <= Scores.calculate_engagement_score 2500 150 10 <= 1)%Q /\
  (5000 <= 2500 -> 300 <= 150 -> (20 <= 10)%Q ->
   (Scores.calculate_engagement_score 2500 150 10 == 1)%Q).
Proof.
  split; [lia|]. split; [lia|]. split; [lra|].
  apply (engagement_score_range 2500 150 10); [lia|lia|lra].
Defined.
